(** * Claude Muzak: process-lifecycle logic of [claude_muzak.py]

    A shallow embedding of the [ClaudeMuzak] class: the marker file
    [/tmp/claude_elevator_music.pid], the process table it refers to, the
    terminal of the key listener, and the Python control flow
    ([try]/[except]/[finally], [break]/[continue]) of each method.

    Python code has side effects that survive a raised exception, so the
    methods live in a state monad whose outcomes all carry the world:
    a normal return, a raised exception, or a thread still waiting for
    input when the recorded input ran out. Signals that reach the tool
    itself (an interrupt from the keyboard, a marker that names the tool's
    own process) and the scheduling of the listener thread are not part
    of the model.

    The first part states the playback controller's contract (single
    instance, children-first termination, cleanup, key routing, terminal
    restoration, hook acknowledgement); the second part, "Beyond the
    controller", covers the choice of the music, the marker's text, Start
    and Stop at their edges, the listener's error paths and the command
    line of [main]. *)

From Stdlib Require Import ZArith List String Ascii Bool Lia.
From Stdlib Require Import DecimalString.
From Stdlib Require Decimal DecimalFacts DecimalPos.
Import ListNotations.
Local Open Scope string_scope.
Local Open Scope list_scope.
Local Open Scope Z_scope.

(** ** Python exceptions *)

Module Py.

(** The exception classes the program names or that the library calls it
    makes can raise, with Python's class hierarchy. *)
Inductive Class :=
| BaseException
| Exception
| KeyboardInterrupt
| OSError
| FileNotFoundError
| ProcessLookupError
| PermissionError
| ValueError
| UnicodeError
| UnicodeDecodeError
| ArithmeticError
| OverflowError
| CalledProcessError
| TermiosError.

Definition class_eqb (c d : Class) : bool :=
  match c, d with
  | BaseException, BaseException | Exception, Exception
  | KeyboardInterrupt, KeyboardInterrupt | OSError, OSError
  | FileNotFoundError, FileNotFoundError
  | ProcessLookupError, ProcessLookupError
  | PermissionError, PermissionError | ValueError, ValueError
  | UnicodeError, UnicodeError | UnicodeDecodeError, UnicodeDecodeError
  | ArithmeticError, ArithmeticError | OverflowError, OverflowError
  | CalledProcessError, CalledProcessError
  | TermiosError, TermiosError => true
  | _, _ => false
  end.

(** Direct base class ([None] for the root). *)
Definition base (c : Class) : option Class :=
  match c with
  | BaseException => None
  | Exception | KeyboardInterrupt => Some BaseException
  | OSError | ValueError | ArithmeticError | CalledProcessError
  | TermiosError => Some Exception
  | FileNotFoundError | ProcessLookupError | PermissionError => Some OSError
  | UnicodeError => Some ValueError
  | UnicodeDecodeError => Some UnicodeError
  | OverflowError => Some ArithmeticError
  end.

(** The method resolution order of a class: itself, then its bases. The
    hierarchy above is at most four deep. *)
Fixpoint mro_fuel (n : nat) (c : Class) : list Class :=
  match n with
  | O => [c]
  | S n' => c :: match base c with
                 | Some b => mro_fuel n' b
                 | None => []
                 end
  end.

Definition mro (c : Class) : list Class := mro_fuel 4 c.

Definition issubclass (c d : Class) : bool := existsb (class_eqb d) (mro c).

(** A raised exception: its class and the text [str(e)] gives. *)
Record exn := mkExn { cls : Class; msg : string }.

(** [except (C1, C2, ...)] matches when the exception is an instance of
    one of the listed classes. *)
Definition matches (cs : list Class) (e : exn) : bool :=
  existsb (issubclass (cls e)) cs.

End Py.

Import Py.

(** ** Python text: [str.strip], [int] and [str] on integers *)

(** The marker's text is a sequence of ASCII characters, which is what
    [f.write(str(process.pid))] produces. [strip] and [int] are modelled on
    ASCII: a byte outside ASCII is taken for a character that is neither a
    digit nor white space, whereas Python also accepts the decimal digits
    and the white space of the rest of Unicode. Where the outcome depends
    on it, a statement is made for a marker of ASCII text ([ascii_text]
    below). Universal newline translation on reading only maps white space
    to white space and is left out. *)

(** [str.isspace] on ASCII: TAB..CR, FS..US and the space. *)
Definition is_space (a : ascii) : bool :=
  let n := nat_of_ascii a in
  ((9 <=? n) && (n <=? 13) || (28 <=? n) && (n <=? 31) || (n =? 32))%nat.

Fixpoint lstrip (s : list ascii) : list ascii :=
  match s with
  | a :: rest => if is_space a then lstrip rest else s
  | [] => []
  end.

(** [s.strip()]. *)
Definition py_strip (s : string) : string :=
  string_of_list_ascii
    (rev (lstrip (rev (lstrip (list_ascii_of_string s))))).

Definition is_digit (a : ascii) : bool :=
  let n := nat_of_ascii a in ((48 <=? n) && (n <=? 57))%nat.

Definition digit_val (a : ascii) : Z := Z.of_nat (nat_of_ascii a) - 48.

(** Decimal digits with single underscores between digits; returns the
    value and the number of digits read. *)
Fixpoint digits_from (after_digit : bool) (acc : Z) (n : nat) (s : list ascii)
  : option (Z * nat) :=
  match s with
  | [] => if after_digit then Some (acc, n) else None
  | a :: rest =>
      if is_digit a then digits_from true (10 * acc + digit_val a) (S n) rest
      else if Ascii.eqb a "_" && after_digit then digits_from false acc n rest
      else None
  end.

(** CPython's default [sys.int_info.default_max_str_digits]. *)
Definition max_str_digits : nat := 4300.

(** [int(s)] on a [str]: surrounding white space, an optional sign, the
    digits. [None] is [ValueError]. *)
Definition parse_int (s : string) : option Z :=
  let body := list_ascii_of_string (py_strip s) in
  let '(neg, ds) :=
    match body with
    | a :: rest =>
        if Ascii.eqb a "-" then (true, rest)
        else if Ascii.eqb a "+" then (false, rest)
        else (false, body)
    | [] => (false, body)
    end in
  match digits_from false 0 0 ds with
  | Some (v, n) =>
      if (max_str_digits <? n)%nat then None
      else Some (if neg then - v else v)
  | None => None
  end.

(** [str(n)] for an integer. *)
Definition py_str (n : Z) : string := NilZero.string_of_int (Z.to_int n).

Arguments py_strip : simpl never.
Arguments parse_int : simpl never.
Arguments py_str : simpl never.

(** *** The text of [int]'s errors *)

Definition hex_digit (n : nat) : ascii :=
  nth n (list_ascii_of_string "0123456789abcdef") "0"%char.

Definition hex2 (n : nat) : string :=
  String (hex_digit (n / 16)) (String (hex_digit (n mod 16)) EmptyString).

Definition single_quote : ascii := ascii_of_nat 39.
Definition double_quote : ascii := ascii_of_nat 34.
Definition backslash : ascii := ascii_of_nat 92.

Definition has_char (a : ascii) (s : string) : bool :=
  existsb (Ascii.eqb a) (list_ascii_of_string s).

(** The quotes [repr] puts around a string: double quotes when the string
    holds a single quote and no double quote, single quotes otherwise. *)
Definition repr_quote (s : string) : ascii :=
  if has_char single_quote s && negb (has_char double_quote s)
  then double_quote else single_quote.

(** One character inside [repr]: the quote in use and the backslash are
    escaped, TAB, LF and CR have their letters, the other control
    characters are written in hexadecimal. *)
Definition repr_char (quote a : ascii) : string :=
  let n := nat_of_ascii a in
  if Ascii.eqb a quote || Ascii.eqb a backslash then
    String backslash (String a EmptyString)
  else if (n =? 9)%nat then String backslash "t"
  else if (n =? 10)%nat then String backslash "n"
  else if (n =? 13)%nat then String backslash "r"
  else if (n <? 32)%nat || (n =? 127)%nat then
    String backslash (String "x" (hex2 n))
  else String a EmptyString.

(** [repr(s)] for a string of ASCII characters. *)
Definition py_repr (s : string) : string :=
  let quote := repr_quote s in
  String quote
    (String.concat EmptyString
                   (map (repr_char quote) (list_ascii_of_string s))
     ++ String quote EmptyString)%string.

Fixpoint take_while (f : ascii -> bool) (l : list ascii) : list ascii :=
  match l with
  | a :: rest => if f a then a :: take_while f rest else []
  | [] => []
  end.

(** The digits [int] scans after the sign, up to the first character that
    is neither a digit nor an underscore: how many they are, when the
    underscores are in place. *)
Definition scanned_digits (s : string) : option nat :=
  let body := list_ascii_of_string (py_strip s) in
  let ds :=
    match body with
    | a :: rest => if Ascii.eqb a "-" || Ascii.eqb a "+" then rest else body
    | [] => body
    end in
  option_map snd
    (digits_from false 0 0
       (take_while (fun a => is_digit a || Ascii.eqb a "_") ds)).

(** [str(e)] for the [ValueError] of [int(s)]: the limit on the number of
    digits is checked on the digits scanned, before the rest of the text is
    looked at; the literal is shown by [%.200R]. *)
Definition int_error (s : string) : string :=
  let invalid :=
    ("invalid literal for int() with base 10: "
     ++ substring 0 200 (py_repr s))%string in
  match scanned_digits s with
  | Some n =>
      if (max_str_digits <? n)%nat then
        ("Exceeds the limit (4300 digits) for integer string conversion: value has "
         ++ py_str (Z.of_nat n)
         ++ " digits; use sys.set_int_max_str_digits() to increase the limit")%string
      else invalid
  | None => invalid
  end.

Arguments int_error : simpl never.


(** ** The host: marker file, process table, terminal, output *)

(** The file [/tmp/claude_elevator_music.pid]. In the sticky directory
    [/tmp] a file that belongs to another user can be read but neither
    removed nor rewritten. *)
Record File := mkFile { content : string; ours : bool }.

(** A process other than the tool itself. [p_player] says its command line
    matches the pattern [afplay.*muzakfiles] of the sweep; [p_owned] that
    the tool's user may signal it. *)
Record Proc := mkProc {
  p_pid : Z;
  p_ppid : Z;
  p_owned : bool;
  p_player : bool
}.

Inductive Signal := SIG0 | SIGTERM.

(** Terminal attributes as [termios.tcgetattr] returns them. *)
Record Termios := mkTermios { t_raw : bool; t_flags : nat }.

(** The library calls with an effect outside the interpreter, in the order
    the program issues them (a call is recorded when it is made, whether
    or not it then fails). *)
Inductive Call :=
| CKill (pid : Z) (sig : Signal)
| CPkillParent (pid : Z)
| CPkillPattern
| CPopen (music : string)
| CWritePid (text : string)
| CUnlink
| CSetraw
| CTcsetattr (old : Termios).

(** What does not change while the tool runs. *)
Record Host := mkHost {
  keyboard_available : bool;          (* KEYBOARD_AVAILABLE *)
  music_dir : string;                 (* str(self.music_dir) *)
  music_entries : option (list string); (* names in muzakfiles/, None: no directory *)
  rand : nat;                         (* what random.choice draws *)
  tool_pid : Z;                       (* os.getpid() *)
  has_pkill : bool;
  has_bash : bool;
  tool_ppid : Z;                      (* os.getppid() *)
  tool_player : bool                  (* the tool's own command line matches
                                         the pattern of the sweep *)
}.

Record World := mkWorld {
  host : Host;
  pid_file : option File;
  procs : list Proc;
  next_pid : Z;
  stop_flag : bool;                   (* self.stop_flag *)
  term : option Termios;              (* None: stdin is not a terminal *)
  stdout : list string;               (* the lines printed so far *)
  calls : list Call
}.

Definition set_pid_file (f : option File) (w : World) : World :=
  mkWorld (host w) f (procs w) (next_pid w) (stop_flag w) (term w)
          (stdout w) (calls w).

Definition set_procs (ps : list Proc) (w : World) : World :=
  mkWorld (host w) (pid_file w) ps (next_pid w) (stop_flag w) (term w)
          (stdout w) (calls w).

Definition set_next_pid (n : Z) (w : World) : World :=
  mkWorld (host w) (pid_file w) (procs w) n (stop_flag w) (term w)
          (stdout w) (calls w).

Definition set_stop_flag (b : bool) (w : World) : World :=
  mkWorld (host w) (pid_file w) (procs w) (next_pid w) b (term w)
          (stdout w) (calls w).

Definition set_term (t : option Termios) (w : World) : World :=
  mkWorld (host w) (pid_file w) (procs w) (next_pid w) (stop_flag w) t
          (stdout w) (calls w).

Definition emit (line : string) (w : World) : World :=
  mkWorld (host w) (pid_file w) (procs w) (next_pid w) (stop_flag w) (term w)
          (stdout w ++ [line]) (calls w).

Definition log (c : Call) (w : World) : World :=
  mkWorld (host w) (pid_file w) (procs w) (next_pid w) (stop_flag w) (term w)
          (stdout w) (calls w ++ [c]).

(** ** The monad of Python statements *)

(** A statement run in a world ends in one of three ways, each with the
    world it leaves: it returns a value, it raises, or it is still waiting
    (the key listener when the recorded input is over, a wrapped command
    that never ends). *)
Inductive Res (A : Type) : Type :=
| Ret (a : A) (w : World)
| Exc (e : exn) (w : World)
| Waiting (w : World).

Arguments Ret {A} a w.
Arguments Exc {A} e w.
Arguments Waiting {A} w.

Definition M (A : Type) : Type := World -> Res A.

Definition world_of {A} (r : Res A) : World :=
  match r with Ret _ w | Exc _ w | Waiting w => w end.

Definition ret {A} (a : A) : M A := fun w => Ret a w.

Definition bind {A B} (m : M A) (k : A -> M B) : M B :=
  fun w => match m w with
           | Ret a w' => k a w'
           | Exc e w' => Exc e w'
           | Waiting w' => Waiting w'
           end.

Definition raise {A} (e : exn) : M A := fun w => Exc e w.

(** [try: m  except (cs) as e: h e]. An exception raised by the handler
    itself propagates. *)
Definition try_except {A} (m : M A) (cs : list Class) (h : exn -> M A) : M A :=
  fun w => match m w with
           | Exc e w' => if matches cs e then h e w' else Exc e w'
           | r => r
           end.

(** [try: m  finally: fin]. The [finally] block runs on return and on
    raise; what it raises replaces the pending outcome. *)
Definition try_finally {A} (m : M A) (fin : M unit) : M A :=
  fun w => match m w with
           | Ret a w' => match fin w' with
                         | Ret _ w'' => Ret a w''
                         | Exc e w'' => Exc e w''
                         | Waiting w'' => Waiting w''
                         end
           | Exc e w' => match fin w' with
                         | Ret _ w'' => Exc e w''
                         | Exc e' w'' => Exc e' w''
                         | Waiting w'' => Waiting w''
                         end
           | Waiting w' => Waiting w'
           end.

(** [if c: m]. *)
Definition when (c : bool) (m : M unit) : M unit := if c then m else ret tt.

Declare Scope py_scope.
Delimit Scope py_scope with py.
Notation "x <- m ;; k" := (bind m (fun x => k))
  (at level 61, m at next level, right associativity) : py_scope.
Notation "m ;; k" := (bind m (fun _ => k))
  (at level 61, right associativity) : py_scope.
Local Open Scope py_scope.

(** ** Library calls *)

(** [print(line)]. *)
Definition print (line : string) : M unit := fun w => Ret tt (emit line w).

(** [sys.stdout.flush()]: the printed lines stay as they are. *)
Definition stdout_flush : M unit := ret tt.

Definition marker_path : string := "/tmp/claude_elevator_music.pid".

Definition enoent (path : string) : exn :=
  mkExn FileNotFoundError
        ("[Errno 2] No such file or directory: '" ++ path ++ "'").

Definition eperm_on (path : string) : exn :=
  mkExn PermissionError ("[Errno 1] Operation not permitted: '" ++ path ++ "'").

(** [self.pid_file.exists()]. *)
Definition pid_file_exists : M bool :=
  fun w => Ret (match pid_file w with Some _ => true | None => false end) w.

(** [with open(self.pid_file, 'r') as f: f.read()]. *)
Definition read_pid_file : M string :=
  fun w => match pid_file w with
           | Some f => Ret (content f) w
           | None => Exc (enoent marker_path) w
           end.

(** [with open(self.pid_file, 'w') as f: f.write(text)]. *)
Definition write_pid_file (text : string) : M unit :=
  fun w =>
    let w := log (CWritePid text) w in
    match pid_file w with
    | Some f => if ours f then Ret tt (set_pid_file (Some (mkFile text true)) w)
                else Exc (eperm_on marker_path) w
    | None => Ret tt (set_pid_file (Some (mkFile text true)) w)
    end.

(** [self.pid_file.unlink()]. *)
Definition pid_file_unlink : M unit :=
  fun w =>
    let w := log CUnlink w in
    match pid_file w with
    | Some f => if ours f then Ret tt (set_pid_file None w)
                else Exc (eperm_on marker_path) w
    | None => Exc (enoent marker_path) w
    end.

(** [int(s)]. *)
Definition py_int (s : string) : M Z :=
  fun w => match parse_int s with
           | Some n => Ret n w
           | None => Exc (mkExn ValueError (int_error s)) w
           end.

(** *** Signals and the process table *)

Definition mem (x : Z) (l : list Z) : bool := existsb (Z.eqb x) l.

(** A child of a process that died is adopted by process 1. *)
Definition adopt (dead : list Z) (p : Proc) : Proc :=
  if mem (p_ppid p) dead then mkProc (p_pid p) 1 (p_owned p) (p_player p) else p.

(** The table after the processes [dead] have terminated. *)
Definition reap (dead : list Z) (ps : list Proc) : list Proc :=
  map (adopt dead) (filter (fun p => negb (mem (p_pid p) dead)) ps).

(** SIGTERM terminates its target (the player driver and the player
    install no handler); signal 0 only probes. *)
Definition deliver (sig : Signal) (targets : list Z) (ps : list Proc) : list Proc :=
  match sig with
  | SIG0 => ps
  | SIGTERM => reap targets ps
  end.

(** [pid_t] is a C [int]. *)
Definition in_pid_range (pid : Z) : bool :=
  (-2147483648 <=? pid) && (pid <=? 2147483647).

(** The argument conversion of [os.kill] on an integer that is no [pid_t]
    (on a host whose C [long] has 64 bits). *)
Definition pid_overflow (pid : Z) : exn :=
  mkExn OverflowError
        (if (pid <? -9223372036854775808) || (9223372036854775807 <? pid)
         then "Python int too large to convert to C long"
         else if pid <? 0 then "signed integer is less than minimum"
         else "signed integer is greater than maximum").

(** [os.kill(pid, sig)]. The table is looked up by process identity. It
    lists processes, not process groups, which kill(2) addresses through an
    identity that is not positive, and it does not list the tool itself:
    what is stated below about the outcome of a signal is stated for a
    positive identity of another process. *)
Definition os_kill (pid : Z) (sig : Signal) : M unit :=
  fun w =>
    let w := log (CKill pid sig) w in
    if negb (in_pid_range pid) then Exc (pid_overflow pid) w
    else match find (fun p => p_pid p =? pid) (procs w) with
         | None => Exc (mkExn ProcessLookupError "[Errno 3] No such process") w
         | Some p =>
             if p_owned p then Ret tt (set_procs (deliver sig [pid] (procs w)) w)
             else Exc (mkExn PermissionError "[Errno 1] Operation not permitted") w
         end.

(** The two uses of pkill: [pkill -P <pid>] and
    [pkill -f afplay.*muzakfiles]. *)
Inductive PkillArgs := ByParent (pid : Z) | ByPattern.

Definition selected (a : PkillArgs) (p : Proc) : bool :=
  match a with
  | ByParent pid => p_ppid p =? pid
  | ByPattern => p_player p
  end.

Definition pkill_call (a : PkillArgs) : Call :=
  match a with
  | ByParent pid => CPkillParent pid
  | ByPattern => CPkillPattern
  end.

(** [subprocess.run(['pkill', ...], stderr=subprocess.DEVNULL)]: without
    [check=True] the exit status of pkill raises nothing; the call raises
    only when pkill cannot be executed. pkill sends SIGTERM to every
    selected process its user may signal. The table does not list the tool
    itself, which [pkill -P] selects when it is given the identity of the
    tool's parent, and the sweep when the tool's own command line matches
    the pattern: [kills_tool] below reads these calls off the trace. *)
Definition subprocess_run_pkill (a : PkillArgs) : M unit :=
  fun w =>
    let w := log (pkill_call a) w in
    if has_pkill (host w) then
      let hit := filter (fun p => selected a p && p_owned p) (procs w) in
      Ret tt (set_procs (reap (map p_pid hit) (procs w)) w)
    else Exc (enoent "pkill") w.

(** [subprocess.Popen(['bash', '-c', 'while true; do afplay "<music>"; done'], ...)]:
    the new process is a child of the tool, and its command line matches
    the sweep pattern since [music] lies under [muzakfiles]. Returns
    [process.pid]. The host hands out identities from a counter; a real
    host reuses the identity of a process that has ended, so that an
    identity is never handed out twice is a feature of this model and not
    of a host. *)
Definition popen_player (music : string) : M Z :=
  fun w =>
    let w := log (CPopen music) w in
    if has_bash (host w) then
      let pid := next_pid w in
      Ret pid (set_next_pid (pid + 1)
                 (set_procs (procs w ++ [mkProc pid (tool_pid (host w)) true true]) w))
    else Exc (enoent "bash") w.

(** *** The terminal *)

Definition not_a_tty : exn :=
  mkExn TermiosError "(25, 'Inappropriate ioctl for device')".

(** [termios.tcgetattr(sys.stdin)]. *)
Definition tcgetattr : M Termios :=
  fun w => match term w with
           | Some t => Ret t w
           | None => Exc not_a_tty w
           end.

(** [tty.setraw(sys.stdin.fileno())]. *)
Definition setraw : M unit :=
  fun w =>
    let w := log CSetraw w in
    match term w with
    | Some t => Ret tt (set_term (Some (mkTermios true (t_flags t))) w)
    | None => Exc not_a_tty w
    end.

(** [termios.tcsetattr(sys.stdin, termios.TCSADRAIN, old)]. *)
Definition tcsetattr (old : Termios) : M unit :=
  fun w =>
    let w := log (CTcsetattr old) w in
    match term w with
    | Some _ => Ret tt (set_term (Some old) w)
    | None => Exc not_a_tty w
    end.

(** One turn of the listener's loop as the terminal decides it: what
    [select.select([sys.stdin], [], [], 0.1)] and [sys.stdin.read(1)] do. *)
Inductive Tick :=
| TimedOut                   (* select times out *)
| SelectRaises (e : exn)
| Key (c : Z)                (* read returns the character of code c *)
| Eof                        (* read returns the empty string *)
| ReadRaises (e : exn).

(** [select.select([sys.stdin], [], [], 0.1)[0]] as a truth value. *)
Definition select_ready (t : Tick) : M bool :=
  match t with
  | TimedOut => ret false
  | SelectRaises e => raise e
  | Key _ | Eof | ReadRaises _ => ret true
  end.

(** [sys.stdin.read(1)]: [None] is the empty string. *)
Definition stdin_read1 (t : Tick) : M (option Z) :=
  match t with
  | Key c => ret (Some c)
  | ReadRaises e => raise e
  | TimedOut | SelectRaises _ | Eof => ret None
  end.

(** [self.stop_flag.set()]. *)
Definition stop_flag_set : M unit := fun w => Ret tt (set_stop_flag true w).

(** [char.lower()] on a code point; a character outside ASCII never
    lowers to an ASCII letter. *)
Definition py_lower (c : Z) : Z :=
  if (65 <=? c) && (c <=? 90) then c + 32 else c.



(** ** The methods of [ClaudeMuzak] *)

(** *** [get_random_music_file] *)

(** A [pathlib.Path] inside a directory. *)
Record Path := mkPath { parent : string; name : string }.

Definition path_str (p : Path) : string := parent p ++ "/" ++ name p.

Definition patterns : list string :=
  ["*.mp3"; "*.m4a"; "*.wav"; "*.aac"; "*.flac"; "*.ogg"].

Fixpoint ends_with (suffix s : string) : bool :=
  String.eqb s suffix
  || match s with
     | String _ rest => ends_with suffix rest
     | EmptyString => false
     end.

(** A pattern [*suffix] of [Path.glob] against one directory entry. *)
Definition fnmatch (pattern entry : string) : bool :=
  match pattern with
  | String "*" suffix => ends_with suffix entry
  | _ => String.eqb pattern entry
  end.

Definition glob (entries : list string) (pattern : string) : list string :=
  filter (fnmatch pattern) entries.

(** [random.choice(seq)] on a sequence that is not empty. *)
Definition random_choice (draw : nat) (seq : list string) : string :=
  nth (draw mod List.length seq)%nat seq "".

Definition get_random_music_file : M Path :=
  fun w =>
    match music_entries (host w) with
    | None =>
        Exc (mkExn FileNotFoundError
               ("Music directory " ++ music_dir (host w) ++ " not found")) w
    | Some entries =>
        let music_files := flat_map (glob entries) patterns in
        match music_files with
        | [] => Exc (mkExn FileNotFoundError
                       ("No audio files found in " ++ music_dir (host w))) w
        | _ :: _ =>
            Ret (mkPath (music_dir (host w))
                        (random_choice (rand (host w)) music_files)) w
        end
    end.

(** *** [is_music_playing] *)

Definition is_music_playing : M bool :=
  present <- pid_file_exists ;;
  if negb present then ret false
  else
    try_except
      (text <- read_pid_file ;;
       pid <- py_int (py_strip text) ;;
       os_kill pid SIG0 ;;
       ret true)
      [OSError; ValueError]
      (fun _ =>
         still <- pid_file_exists ;;
         when still pid_file_unlink ;;
         ret false).

(** *** [start_music] *)

(** The statements under [try:]. *)
Definition start_music_try (quiet : bool) : M unit :=
  playing <- is_music_playing ;;
  if playing then
    when (negb quiet) (print "Elevator music is already playing")
  else
    selected_music <- get_random_music_file ;;
    when (negb quiet) (print ("🎵 Selected: " ++ name selected_music)) ;;
    pid <- popen_player (path_str selected_music) ;;
    write_pid_file (py_str pid) ;;
    when (negb quiet)
         (print ("🎵 Started elevator music (PID: " ++ py_str pid ++ ")")).

Definition start_music (quiet : bool) : M unit :=
  try_except
    (start_music_try quiet)
    [Exception]
    (fun e => when (negb quiet) (print ("Error starting music: " ++ msg e))).

(** *** [stop_music] *)

(** The inner [try:] with its handler: the children first, then the
    recorded process. *)
Definition stop_music_kill (pid : Z) : M unit :=
  try_except
    (subprocess_run_pkill (ByParent pid) ;;
     os_kill pid SIGTERM)
    [OSError; CalledProcessError]
    (fun _ => ret tt).

(** The statements under the outer [try:]. *)
Definition stop_music_try (quiet : bool) : M unit :=
  present <- pid_file_exists ;;
  (if present then
     text <- read_pid_file ;;
     pid <- py_int (py_strip text) ;;
     stop_music_kill pid ;;
     pid_file_unlink ;;
     when (negb quiet) (print "🔇 Stopped elevator music")
   else
     when (negb quiet) (print "Elevator music is not playing")) ;;
  subprocess_run_pkill ByPattern.

Definition stop_music (quiet : bool) : M unit :=
  try_except
    (stop_music_try quiet)
    [Exception]
    (fun e => when (negb quiet) (print ("Error stopping music: " ++ msg e))).

(** *** [listen_for_escape] *)

(** How one turn of the [while] loop ends. *)
Inductive Ctl := Continue | Break.

Definition crlf : string :=
  String (ascii_of_nat 13) (String (ascii_of_nat 10) EmptyString).

(** The body of [if char:]. *)
Definition on_char (c : Z) : M Ctl :=
  if mem c [27; 3] || (py_lower c =? 113) then
    (if c =? 27 then print (crlf ++ "🔇 Escape pressed - stopping music...")
     else if c =? 3 then print (crlf ++ "🔇 Ctrl+C pressed - stopping music...")
     else print (crlf ++ "🔇 Q pressed - stopping music...")) ;;
    stop_music true ;;
    stop_flag_set ;;
    ret Break
  else ret Continue.

(** The body of the [while] loop; [IOError] is an alias of [OSError]. *)
Definition turn (t : Tick) : M Ctl :=
  ready <- select_ready t ;;
  if ready then
    try_except
      (char <- stdin_read1 t ;;
       match char with
       | Some c => on_char c
       | None => ret Continue
       end)
      [OSError; OSError]
      (fun _ => ret Continue)
  else ret Continue.

(** [while not self.stop_flag.is_set(): ...] over the recorded input. *)
Fixpoint watch (script : list Tick) : M unit :=
  fun w =>
    if stop_flag w then Ret tt w
    else match script with
         | [] => Waiting w
         | t :: rest =>
             match turn t w with
             | Ret Continue w' => watch rest w'
             | Ret Break w' => Ret tt w'
             | Exc e w' => Exc e w'
             | Waiting w' => Waiting w'
             end
         end.

Definition listen_for_escape (script : list Tick) : M unit :=
  fun w =>
    if negb (keyboard_available (host w)) then Ret tt w
    else
      (old_settings <- tcgetattr ;;
       try_finally
         (try_except (setraw ;; watch script) [Exception] (fun _ => ret tt))
         (try_except (tcsetattr old_settings) [BaseException]
                     (fun _ => ret tt))) w.

(** *** [run_with_music] *)

(** The [command] argument: a string or an argument list. *)
Inductive Command := CmdStr (line : string) | CmdArgv (argv : list string).

(** [isinstance(command, str)]. *)
Definition is_str (command : Command) : bool :=
  match command with
  | CmdStr _ => true
  | CmdArgv _ => false
  end.

Section TaskRunner.

(** [subprocess.run(command, shell=...)] followed by [.returncode]: what the
    wrapped command does to the host is the command's own business. *)
Variable subprocess_run : Command -> bool -> M Z.

Definition run_with_music (command : Command) : M Z :=
  start_music false ;;
  try_finally
    (if is_str command then subprocess_run command true
     else subprocess_run command false)
    (stop_music false).

End TaskRunner.

(** *** [hook] *)

Definition dquote : string := String (ascii_of_nat 34) EmptyString.

(** [json.dumps({'allow': True})]. *)
Definition allow_json : string :=
  "{" ++ dquote ++ "allow" ++ dquote ++ ": true}".

Definition hook (hook_type : string) : M Z :=
  (if String.eqb hook_type "start" then
     start_music true ;;
     stdout_flush ;;
     print allow_json ;;
     stdout_flush
   else if String.eqb hook_type "stop" then
     stop_music true
   else ret tt) ;;
  ret 0.

(** [n] consecutive calls of [stop_music]. *)
Fixpoint stop_music_times (n : nat) (quiet : bool) : M unit :=
  match n with
  | O => ret tt
  | S k => stop_music quiet ;; stop_music_times k quiet
  end.

(** ** Reading the host *)

(** The existence probe [os.kill(pid, 0)] succeeds: the identity fits a
    [pid_t] and names a process the tool's user may signal. *)
Definition probe_ok (w : World) (pid : Z) : bool :=
  in_pid_range pid
  && match find (fun p => p_pid p =? pid) (procs w) with
     | Some p => p_owned p
     | None => false
     end.

(** A process identity: a positive [pid_t]. *)
Definition process_identity (pid : Z) : bool :=
  (0 <? pid) && (pid <=? 2147483647).

(** The identity the marker records, when its text is an integer. *)
Definition recorded (w : World) : option Z :=
  match pid_file w with
  | Some f => parse_int (py_strip (content f))
  | None => None
  end.

(** A live playback session exists: the marker holds the identity of a
    live process. *)
Definition session_live (w : World) : bool :=
  match recorded w with
  | Some pid => probe_ok w pid
  | None => false
  end.

(** *** Calls that reach the tool itself *)

(** The process table lists the processes other than the tool, so what
    [os_kill] and [subprocess_run_pkill] return is what the call returns on
    a host where it does not reach the tool. These calls do reach it, and
    terminate it before it runs any further: SIGTERM sent to the tool's own
    identity, or to identity 0, which is its own process group; [pkill -P]
    with the identity of the tool's parent; the sweep, when the tool's own
    command line matches the pattern. A negative identity addresses another
    process group or every process and may reach the tool as well: what
    is stated about Stop's outcome is stated for positive identities. *)
Definition kills_tool (h : Host) (c : Call) : bool :=
  match c with
  | CKill pid SIGTERM => (pid =? 0) || (pid =? tool_pid h)
  | CPkillParent pid => has_pkill h && (pid =? tool_ppid h)
  | CPkillPattern => has_pkill h && tool_player h
  | _ => false
  end.

(** The calls made between two worlds of one run. *)
Definition new_calls (w w' : World) : list Call :=
  skipn (List.length (calls w)) (calls w').

(** One of the calls made between [w] and [w'] terminated the tool: the
    run ended there, and [w'] is not reached. *)
Definition tool_killed (w w' : World) : bool :=
  existsb (kills_tool (host w)) (new_calls w w').

(** An identity that addresses neither the tool, nor its parent, nor a
    process group. *)
Definition foreign_identity (h : Host) (pid : Z) : bool :=
  (0 <? pid) && negb (pid =? tool_pid h) && negb (pid =? tool_ppid h).

(** Text of ASCII characters, on which [strip] and [int] are as modelled
    above. *)
Definition ascii_text (s : string) : bool :=
  forallb (fun a => (nat_of_ascii a <? 128)%nat) (list_ascii_of_string s).

(** Stop cannot reach the tool: the tool's command line does not match the
    pattern of the sweep, and the marker, if there is one, is ASCII text
    that holds no integer or a foreign identity. *)
Definition stop_spares_tool (w : World) : bool :=
  negb (tool_player (host w))
  && match pid_file w with
     | None => true
     | Some f =>
         ascii_text (content f)
         && match parse_int (py_strip (content f)) with
            | Some pid => foreign_identity (host w) pid
            | None => true
            end
     end.

(** The table after the sweep by command line. *)
Definition swept (h : Host) (ps : list Proc) : list Proc :=
  if has_pkill h then
    reap (map p_pid (filter (fun p => selected ByPattern p && p_owned p) ps)) ps
  else ps.

(** The terminal modes restored so far, oldest first. *)
Fixpoint restores (cs : list Call) : list Termios :=
  match cs with
  | CTcsetattr old :: rest => old :: restores rest
  | _ :: rest => restores rest
  | [] => []
  end.

(** The player processes started so far. *)
Fixpoint spawns (cs : list Call) : list string :=
  match cs with
  | CPopen music :: rest => music :: spawns rest
  | _ :: rest => spawns rest
  | [] => []
  end.

(** ** Properties of statements *)

(** A statement that raises only instances of [Exception] and always
    comes back (it never waits for input). *)
Definition tame {A} (m : M A) : Prop :=
  forall w, match m w with
            | Ret _ _ => True
            | Exc e _ => issubclass (cls e) Exception = true
            | Waiting _ => False
            end.

(** A relation between the world before and after a statement that holds
    across sequences of statements. *)
Class Frame (R : World -> World -> Prop) : Prop := {
  frame_refl : forall w, R w w;
  frame_trans : forall a b c, R a b -> R b c -> R a c
}.

(** The statement relates every world to the one it leaves, however it
    ends. *)
Definition keeps (R : World -> World -> Prop) {A} (m : M A) : Prop :=
  forall w, R w (world_of (m w)).

(** The calls made leave the tool alone, and the host is the same. *)
Definition spares (w w' : World) : Prop :=
  host w' = host w
  /\ exists cs, calls w' = calls w ++ cs
                /\ existsb (kills_tool (host w)) cs = false.

(** The marker is as it was or has been removed, and the host is the
    same. *)
Definition marker_kept_or_gone (w w' : World) : Prop :=
  host w' = host w /\ (pid_file w' = pid_file w \/ pid_file w' = None).

(** Nothing is printed. *)
Definition same_stdout (w w' : World) : Prop := stdout w' = stdout w.

(** The listener's state is left alone: same flag, same terminal mode, no
    further restore. *)
Definition same_listener (w w' : World) : Prop :=
  stop_flag w' = stop_flag w
  /\ term w' = term w
  /\ restores (calls w') = restores (calls w).

(** The terminal is left alone: same mode, no further restore. *)
Definition same_terminal (w w' : World) : Prop :=
  term w' = term w /\ restores (calls w') = restores (calls w).

(** No process is started: every process of the new table was in the old
    one, and no identity has been handed out. *)
Definition nothing_spawned (w w' : World) : Prop :=
  next_pid w' = next_pid w
  /\ spawns (calls w') = spawns (calls w)
  /\ forall p', In p' (procs w') -> exists p, In p (procs w) /\ p_pid p = p_pid p'.

(** Stop can clear the marker: there is none, or it belongs to the tool's
    user and its text is a process identity. *)
Definition stoppable (w : World) : bool :=
  match pid_file w with
  | None => true
  | Some f =>
      ours f
      && match parse_int (py_strip (content f)) with
         | Some pid => process_identity pid
         | None => false
         end
  end.

(** What one call of Stop prints when nothing is playing. *)
Definition not_playing_report (h : Host) (quiet : bool) : list string :=
  if quiet then []
  else "Elevator music is not playing"
       :: (if has_pkill h then []
           else [("Error stopping music: " ++ msg (enoent "pkill"))%string]).

(** No process of the table has the identity [x]. *)
Definition gone (x : Z) (ps : list Proc) : Prop :=
  forall p, In p ps -> p_pid p <> x.


(** ** Sample hosts *)

Definition studio : Host :=
  mkHost true "/opt/muzak/muzakfiles"
         (Some ["lobby.mp3"; "README.txt"; "bossa.ogg"]) 7 4242 true true
         4000 false.

(** Nothing is playing. *)
Definition idle : World :=
  mkWorld studio None [] 500 false (Some (mkTermios false 5)) [] [].

(** A session started by the tool: the driver 500 and the player 501 it
    runs. *)
Definition playing : World :=
  mkWorld studio (Some (mkFile "500" true))
          [mkProc 500 4242 true true; mkProc 501 500 true true]
          502 false (Some (mkTermios false 5)) [] [].

(** The marker holds an integer that is no process identity. *)
Definition oversized : World :=
  set_pid_file (Some (mkFile "99999999999999999999" true)) idle.

(** The session of another user of the host: the marker and the driver
    are theirs. *)
Definition foreign : World :=
  mkWorld studio (Some (mkFile "500" false))
          [mkProc 500 1 false true; mkProc 501 500 false true]
          502 false (Some (mkTermios false 5)) [] [].

(** The marker's text is no integer. *)
Definition garbled : World :=
  set_pid_file (Some (mkFile "abc" true)) idle.

(** A stale marker: process 500 is gone, and pkill is not installed. *)
Definition stale : World :=
  mkWorld (mkHost true "/opt/muzak/muzakfiles" (Some ["lobby.mp3"]) 0 4242
                  false true 4000 false)
          (Some (mkFile "500" true)) [] 502 false
          (Some (mkTermios false 5)) [] [].

(** [afplay] is a wrapper script: the driver 500 runs the wrapper 501,
    which runs the real player 502 under another name. *)
Definition nested : World :=
  mkWorld studio (Some (mkFile "500" true))
          [mkProc 500 4242 true true; mkProc 501 500 true true;
           mkProc 502 501 true false]
          503 false (Some (mkTermios false 5)) [] [].

(** A wrapped command that leaves the host alone and exits with
    [status]. *)
Definition exits (status : Z) : Command -> bool -> M Z :=
  fun _ _ => ret status.

(** A wrapped command that cannot be launched: with an argument list,
    [subprocess.run] raises [FileNotFoundError]; through the shell, the
    shell exits with 127. *)
Definition unlaunchable : Command -> bool -> M Z :=
  fun command shell =>
    if shell then ret 127
    else raise (enoent match command with
                       | CmdArgv (program :: _) => program
                       | _ => ""
                       end).

(** ** Audio files *)

(** The file name suffixes [get_random_music_file] accepts. *)
Definition audio_suffixes : list string :=
  [".mp3"; ".m4a"; ".wav"; ".aac"; ".flac"; ".ogg"].

(** [entry] ends in one of the audio suffixes. *)
Definition audio_name (entry : string) : Prop :=
  exists prefix suffix,
    In suffix audio_suffixes /\ entry = (prefix ++ suffix)%string.

(** ** The command line: [start_music_interactive] and [main] *)

(** [try: m  except (cs1) as e: h1 e  except (cs2) as e: h2 e]. The first
    clause that matches handles the exception; what a handler raises
    propagates. *)
Definition try_except2 {A} (m : M A)
           (cs1 : list Class) (h1 : exn -> M A)
           (cs2 : list Class) (h2 : exn -> M A) : M A :=
  fun w => match m w with
           | Exc e w' =>
               if matches cs1 e then h1 e w'
               else if matches cs2 e then h2 e w'
               else Exc e w'
           | r => r
           end.

(** [print] with several lines, one call each. *)
Fixpoint print_lines (lines : list string) : M unit :=
  match lines with
  | [] => ret tt
  | line :: rest => print line ;; print_lines rest
  end.

Definition newline : string := String (ascii_of_nat 10) EmptyString.

(** What [main] prints when it is called without a command. *)
Definition usage : list string :=
  ["🎵 Claude Muzak - Elevator music for your Claude Code tasks!";
   "";
   "✨ Features:";
   "   • Random music selection from your muzakfiles/ directory";
   "   • Easy control with ESC, Q, or Ctrl+C";
   "   • Automatic integration with Claude Code hooks";
   "";
   "📖 Usage:";
   "  python3 claude_muzak.py start           - Start music (press ESC or Q to stop)";
   "  python3 claude_muzak.py stop            - Stop music";
   "  python3 claude_muzak.py run <command>   - Run command with music";
   "  python3 claude_muzak.py hook start      - Hook: start music";
   "  python3 claude_muzak.py hook stop       - Hook: stop music";
   "";
   "🚀 Quick setup: Create 'muzakfiles/' directory and add your music files!"].

Section CommandLine.

Variable subprocess_run : Command -> bool -> M Z.

(** The concurrent phase of [start_music_interactive]: the listener thread
    is started and the main thread polls the flag and the liveness check,
    stopping the music on [KeyboardInterrupt]. How the two threads
    interleave is left to this parameter. *)
Variable wait_for_stop : M unit.

Definition start_music_interactive : M unit :=
  playing <- is_music_playing ;;
  if playing then print "Elevator music is already playing"
  else
    start_music false ;;
    fun w =>
      if keyboard_available (host w) then
        (print "🎵 Press ESC or Q to stop music..." ;; wait_for_stop) w
      else
        print "🎵 Music started - use 'python claude_muzak.py stop' to stop" w.

(** [main] with [sys.argv = argv]. [Some n] is [sys.exit(n)], which raises
    [SystemExit], an exception neither handler of [main] lists; [None] is
    the end of [main] reached, after which the interpreter exits with
    status 0. *)
Definition main (argv : list string) : M (option Z) :=
  if (List.length argv <? 2)%nat then
    print_lines usage ;; ret (Some 1)
  else
    let command := nth 1 argv "" in
    try_except2
      (if String.eqb command "start" then
         start_music_interactive ;; ret None
       else if String.eqb command "stop" then
         stop_music false ;; ret None
       else if String.eqb command "run" then
         if (List.length argv <? 3)%nat then
           print "❌ Error: 'run' command requires a command to execute" ;;
           print "   Example: python3 claude_muzak.py run 'npm test'" ;;
           ret (Some 1)
         else
           let cmd_to_run := String.concat " " (skipn 2 argv) in
           exit_code <- run_with_music subprocess_run (CmdStr cmd_to_run) ;;
           ret (Some exit_code)
       else if String.eqb command "hook" then
         if (List.length argv <? 3)%nat then
           print "❌ Error: 'hook' command requires start or stop" ;;
           ret (Some 1)
         else
           let hook_type := nth 2 argv "" in
           if negb (existsb (String.eqb hook_type) ["start"; "stop"]) then
             print "❌ Error: hook type must be 'start' or 'stop'" ;;
             ret (Some 1)
           else
             exit_code <- hook hook_type ;;
             ret (Some exit_code)
       else
         print ("❌ Unknown command: " ++ command) ;;
         print "   Run without arguments to see usage help" ;;
         ret (Some 1))
      [KeyboardInterrupt]
      (fun _ =>
         print (newline ++ "🔇 Interrupted - stopping music...") ;;
         stop_music false ;;
         ret (Some 0))
      [Exception]
      (fun e => print ("❌ Error: " ++ msg e) ;; ret (Some 1)).

End CommandLine.

(** ** Decimal numerals *)

(** The value of a decimal numeral read from the left, the digits read so
    far being worth [acc]. *)
Fixpoint uint_value (acc : Z) (d : Decimal.uint) : Z :=
  match d with
  | Decimal.Nil => acc
  | Decimal.D0 d => uint_value (10 * acc + 0) d
  | Decimal.D1 d => uint_value (10 * acc + 1) d
  | Decimal.D2 d => uint_value (10 * acc + 2) d
  | Decimal.D3 d => uint_value (10 * acc + 3) d
  | Decimal.D4 d => uint_value (10 * acc + 4) d
  | Decimal.D5 d => uint_value (10 * acc + 5) d
  | Decimal.D6 d => uint_value (10 * acc + 6) d
  | Decimal.D7 d => uint_value (10 * acc + 7) d
  | Decimal.D8 d => uint_value (10 * acc + 8) d
  | Decimal.D9 d => uint_value (10 * acc + 9) d
  end.

(** The characters of a numeral. *)
Definition numeral (d : Decimal.uint) : list ascii :=
  list_ascii_of_string (NilEmpty.string_of_uint d).

(** Text without white space. *)
Definition solid (l : list ascii) : Prop :=
  Forall (fun a => is_space a = false) l.

(** ** Further readings of the host *)

(** The statement leaves the host, the process table, the output and the
    processes started as they are. *)
Definition same_processes (w w' : World) : Prop :=
  host w' = host w
  /\ procs w' = procs w
  /\ next_pid w' = next_pid w
  /\ stdout w' = stdout w
  /\ spawns (calls w') = spawns (calls w).

(** The host itself is left alone. *)
Definition same_host (w w' : World) : Prop := host w' = host w.

(** The process [p] is still running: the table holds a process with its
    identity, owner and command line (its parent may have changed). *)
Definition survives (p : Proc) (ps : list Proc) : Prop :=
  exists p', In p' ps
             /\ p_pid p' = p_pid p
             /\ p_owned p' = p_owned p
             /\ p_player p' = p_player p.

(** Every process of the table [ps'] was in the table [ps], with the same
    identity and command line. *)
Definition stems (ps ps' : list Proc) : Prop :=
  forall q', In q' ps' ->
    exists q, In q ps /\ p_pid q = p_pid q' /\ p_player q = p_player q'.

(** A turn of the listener's loop in which nothing is read: a timeout, the
    end of the input, or a read error its inner handler lists. *)
Definition idle_tick (t : Tick) : bool :=
  match t with
  | TimedOut | Eof => true
  | ReadRaises e => issubclass (cls e) OSError
  | SelectRaises _ | Key _ => false
  end.

(** A turn in which the listener's loop is left by an exception that its
    inner handler does not list. *)
Definition fault (t : Tick) : option exn :=
  match t with
  | SelectRaises e => Some e
  | ReadRaises e => if issubclass (cls e) OSError then None else Some e
  | TimedOut | Key _ | Eof => None
  end.

(** The command lines the usage text of [main] describes. *)
Definition invocation_ok (argv : list string) : bool :=
  match argv with
  | _ :: command :: rest =>
      if String.eqb command "start" then true
      else if String.eqb command "stop" then true
      else if String.eqb command "run" then
        match rest with _ :: _ => true | [] => false end
      else if String.eqb command "hook" then
        match rest with
        | hook_type :: _ => existsb (String.eqb hook_type) ["start"; "stop"]
        | [] => false
        end
      else false
  | _ => false
  end.

(** The world after the lines have been printed. *)
Definition printed (lines : list string) (w : World) : World :=
  fold_left (fun w line => emit line w) lines w.

(** A statement that raises only what the handlers of [main] list:
    instances of [KeyboardInterrupt] and of [Exception]. *)
Definition civil {A} (m : M A) : Prop :=
  forall w, match m w with
            | Exc e _ => matches [KeyboardInterrupt; Exception] e = true
            | Ret _ _ | Waiting _ => True
            end.

(** ** Further sample hosts *)

(** A player left behind by a session whose marker is gone. *)
Definition orphaned : World :=
  mkWorld studio None [mkProc 900 1 true true] 901 false
          (Some (mkTermios false 5)) [] [].

(** The marker holds 0, the identity that addresses the tool's own process
    group. *)
Definition self_marked : World :=
  set_pid_file (Some (mkFile "0" true)) idle.

(** No music directory beside the script. *)
Definition unstocked : World :=
  mkWorld (mkHost true "/opt/muzak/muzakfiles" None 0 4242 true true
                  4000 false)
          None [] 500 false (Some (mkTermios false 5)) [] [].

(** A platform without [termios], standard input not a terminal. *)
Definition headless : World :=
  mkWorld (mkHost false "/opt/muzak/muzakfiles" (Some ["lobby.mp3"]) 0 4242
                  true true 4000 false)
          None [] 500 false None [] [].

(** Standard input is a pipe. *)
Definition piped : World := set_term None idle.

(** The playing session on a host where pkill is not installed. *)
Definition unequipped : World :=
  mkWorld (mkHost true "/opt/muzak/muzakfiles" (Some ["lobby.mp3"]) 0 4242
                  false true 4000 false)
          (Some (mkFile "500" true))
          [mkProc 500 4242 true true; mkProc 501 500 true true]
          502 false (Some (mkTermios false 5)) [] [].

(** The playing session beside an editor that has nothing to do with it. *)
Definition busy : World :=
  mkWorld studio (Some (mkFile "500" true))
          [mkProc 77 1 true false; mkProc 500 4242 true true;
           mkProc 501 500 true true]
          502 false (Some (mkTermios false 5)) [] [].

(** * Reasoning about statements *)

(** ** The monad *)

Lemma matches_Exception (e : exn) :
  issubclass (cls e) Exception = true -> matches [Exception] e = true.
Proof.
  intro H. unfold matches. simpl. now rewrite H.
Qed.

Lemma matches_BaseException (e : exn) : matches [BaseException] e = true.
Proof.
  unfold matches. destruct e as [c t]. now destruct c.
Qed.

Section Tame.

Context {A B : Type}.

Lemma tame_ret (a : A) : tame (ret a).
Proof. intro w. exact I. Qed.

Lemma tame_bind (m : M A) (k : A -> M B) :
  tame m -> (forall a, tame (k a)) -> tame (bind m k).
Proof.
  intros Hm Hk w. unfold bind. specialize (Hm w).
  destruct (m w) as [a w1 | e w1 | w1]; auto. apply Hk.
Qed.

Lemma tame_try_except (m : M A) (cs : list Class) (h : exn -> M A) :
  tame m -> (forall e, tame (h e)) -> tame (try_except m cs h).
Proof.
  intros Hm Hh w. unfold try_except. specialize (Hm w).
  destruct (m w) as [a w1 | e w1 | w1]; auto.
  destruct (matches cs e); auto. apply Hh.
Qed.

Lemma tame_if (c : bool) (m1 m2 : M A) :
  tame m1 -> tame m2 -> tame (if c then m1 else m2).
Proof. now destruct c. Qed.

End Tame.

Lemma tame_when (c : bool) (m : M unit) : tame m -> tame (when c m).
Proof. intro H. destruct c; [exact H | apply tame_ret]. Qed.

Lemma tame_raise {A} (e : exn) :
  issubclass (cls e) Exception = true -> tame (@raise A e).
Proof. intros H w. exact H. Qed.

(** A handler for [Exception] around a tame statement always returns when
    the handler does. *)
Lemma catch_all_returns (m : M unit) (h : exn -> M unit) :
  tame m ->
  (forall e w, exists w', h e w = Ret tt w') ->
  forall w, exists w', try_except m [Exception] h w = Ret tt w'.
Proof.
  intros Hm Hh w. unfold try_except. specialize (Hm w).
  destruct (m w) as [[] w1 | e w1 | w1].
  - now exists w1.
  - rewrite (matches_Exception e Hm). apply Hh.
  - contradiction.
Qed.

Section Keeps.

Context (R : World -> World -> Prop) `{Frame R} {A B : Type}.

Lemma keeps_ret (a : A) : keeps R (ret a).
Proof. intro w. apply frame_refl. Qed.

Lemma keeps_raise (e : exn) : keeps R (@raise A e).
Proof. intro w. apply frame_refl. Qed.

Lemma keeps_bind (m : M A) (k : A -> M B) :
  keeps R m -> (forall a, keeps R (k a)) -> keeps R (bind m k).
Proof.
  intros Hm Hk w. unfold bind. specialize (Hm w).
  destruct (m w) as [a w1 | e w1 | w1]; simpl in *; auto.
  eapply frame_trans; [exact Hm | apply Hk].
Qed.

Lemma keeps_try_except (m : M A) (cs : list Class) (h : exn -> M A) :
  keeps R m -> (forall e, keeps R (h e)) -> keeps R (try_except m cs h).
Proof.
  intros Hm Hh w. unfold try_except. specialize (Hm w).
  destruct (m w) as [a w1 | e w1 | w1]; simpl in *; auto.
  destruct (matches cs e); simpl; auto.
  eapply frame_trans; [exact Hm | apply Hh].
Qed.

Lemma keeps_try_finally (m : M A) (fin : M unit) :
  keeps R m -> keeps R fin -> keeps R (try_finally m fin).
Proof.
  intros Hm Hf w. unfold try_finally. specialize (Hm w).
  destruct (m w) as [a w1 | e w1 | w1]; simpl in *; auto;
    specialize (Hf w1);
    destruct (fin w1) as [u w2 | e2 w2 | w2]; simpl in *;
    eapply frame_trans; eauto.
Qed.

Lemma keeps_if (c : bool) (m1 m2 : M A) :
  keeps R m1 -> keeps R m2 -> keeps R (if c then m1 else m2).
Proof. now destruct c. Qed.

End Keeps.

Lemma keeps_when (R : World -> World -> Prop) `{Frame R} (c : bool) (m : M unit) :
  keeps R m -> keeps R (when c m).
Proof. intro Hm. destruct c; [exact Hm | now apply keeps_ret]. Qed.

(** ** The library calls *)

Lemma restores_app (a b : list Call) : restores (a ++ b) = restores a ++ restores b.
Proof.
  induction a as [| c a IH]; simpl; [reflexivity |].
  destruct c; simpl; now rewrite IH.
Qed.

Lemma spawns_app (a b : list Call) : spawns (a ++ b) = spawns a ++ spawns b.
Proof.
  induction a as [| c a IH]; simpl; [reflexivity |].
  destruct c; simpl; now rewrite IH.
Qed.

Lemma adopt_pid (dead : list Z) (p : Proc) : p_pid (adopt dead p) = p_pid p.
Proof. unfold adopt. now destruct (mem (p_ppid p) dead). Qed.

Lemma adopt_owned (dead : list Z) (p : Proc) : p_owned (adopt dead p) = p_owned p.
Proof. unfold adopt. now destruct (mem (p_ppid p) dead). Qed.

(** A process of the table after some processes died was in the table
    before, and is none of the dead. *)
Lemma reap_In (dead : list Z) (ps : list Proc) (p' : Proc) :
  In p' (reap dead ps) ->
  mem (p_pid p') dead = false
  /\ exists p, In p ps /\ p_pid p = p_pid p' /\ p_owned p = p_owned p'.
Proof.
  unfold reap. intro H. apply in_map_iff in H. destruct H as [p [E H]].
  apply filter_In in H. destruct H as [Hin Hd]. subst p'.
  rewrite adopt_pid, adopt_owned. split.
  - now apply negb_true_iff in Hd.
  - now exists p.
Qed.

Lemma deliver_In (sig : Signal) (targets : list Z) (ps : list Proc) (p' : Proc) :
  In p' (deliver sig targets ps) ->
  exists p, In p ps /\ p_pid p = p_pid p' /\ p_owned p = p_owned p'.
Proof.
  destruct sig; simpl.
  - intro H. now exists p'.
  - intro H. now apply reap_In in H.
Qed.

Lemma mem_In (x : Z) (l : list Z) : mem x l = true <-> In x l.
Proof.
  unfold mem. rewrite existsb_exists. split.
  - intros [y [Hy E]]. apply Z.eqb_eq in E. now subst.
  - intro H. exists x. split; [exact H | apply Z.eqb_refl].
Qed.

Lemma reap_gone_dead (x : Z) (dead : list Z) (ps : list Proc) :
  mem x dead = true -> gone x (reap dead ps).
Proof.
  intros Hx p Hp E. apply reap_In in Hp. destruct Hp as [Hm _].
  rewrite E in Hm. congruence.
Qed.

Lemma reap_gone_keep (x : Z) (dead : list Z) (ps : list Proc) :
  gone x ps -> gone x (reap dead ps).
Proof.
  intros Hg p Hp E. apply reap_In in Hp.
  destruct Hp as [_ [q [Hq [Eq _]]]]. apply (Hg q Hq). congruence.
Qed.

(** Looking a survivor up by identity after some processes died. *)
Lemma find_reap (x : Z) (dead : list Z) (ps : list Proc) :
  mem x dead = false ->
  find (fun p => p_pid p =? x) (reap dead ps)
  = option_map (adopt dead) (find (fun p => p_pid p =? x) ps).
Proof.
  intro Hx. unfold reap. induction ps as [| p ps IH]; [reflexivity |].
  simpl. destruct (p_pid p =? x) eqn:E.
  - apply Z.eqb_eq in E. rewrite E, Hx. simpl.
    rewrite adopt_pid, E, Z.eqb_refl. reflexivity.
  - destruct (mem (p_pid p) dead); simpl; [exact IH |].
    rewrite adopt_pid, E. exact IH.
Qed.

Lemma adopt_player (dead : list Z) (p : Proc) :
  p_player (adopt dead p) = p_player p.
Proof. unfold adopt. now destruct (mem (p_ppid p) dead). Qed.

Lemma stems_refl (ps : list Proc) : stems ps ps.
Proof. intros q Hq. now exists q. Qed.

Lemma stems_reap (dead : list Z) (ps ps' : list Proc) :
  stems ps ps' -> stems ps (reap dead ps').
Proof.
  intros H q' Hq. unfold reap in Hq. apply in_map_iff in Hq.
  destruct Hq as [q1 [E Hq1]]. apply filter_In in Hq1. destruct Hq1 as [Hq1 _].
  destruct (H q1 Hq1) as [q [Hin [Ep El]]]. exists q. subst q'.
  rewrite adopt_pid, adopt_player. auto.
Qed.

Lemma survives_refl (p : Proc) (ps : list Proc) : In p ps -> survives p ps.
Proof. intro H. now exists p. Qed.

(** A process outlives the death of others. *)
Lemma survives_reap (p : Proc) (dead : list Z) (ps : list Proc) :
  survives p ps -> mem (p_pid p) dead = false -> survives p (reap dead ps).
Proof.
  intros [p' [Hin [Ep [Eo El]]]] Hm. exists (adopt dead p').
  rewrite adopt_pid, adopt_owned, adopt_player. repeat split; auto.
  unfold reap. apply in_map. apply filter_In. split; [exact Hin |].
  now rewrite Ep, Hm.
Qed.

(** In a table without duplicates an identity names one process. *)
Lemma unique_pid (ps : list Proc) (a b : Proc) :
  NoDup (map p_pid ps) -> In a ps -> In b ps -> p_pid a = p_pid b -> a = b.
Proof.
  induction ps as [| q ps IH]; simpl; [contradiction |].
  intros Hn Ha Hb E. inversion Hn as [| x l Hx Hl]; subst.
  destruct Ha as [-> | Ha], Hb as [-> | Hb]; auto.
  - exfalso. apply Hx. rewrite E. now apply in_map.
  - exfalso. apply Hx. rewrite <- E. now apply in_map.
Qed.

Lemma not_selected (a : PkillArgs) (x : Z) (ps : list Proc) :
  (forall q, In q ps -> selected a q = true -> p_pid q <> x) ->
  mem x (map p_pid (filter (fun q => selected a q && p_owned q) ps)) = false.
Proof.
  intros Hsel. apply not_true_is_false. intro Hm.
  apply mem_In in Hm. apply in_map_iff in Hm. destruct Hm as [q [E Hq]].
  apply filter_In in Hq. destruct Hq as [Hq Hc].
  apply andb_true_iff in Hc. destruct Hc as [Hc _].
  now apply (Hsel q Hq Hc).
Qed.

(** The sweep by command line spares a process that is no player. *)
Lemma sweep_spares (p : Proc) (ps0 ps : list Proc) :
  NoDup (map p_pid ps0) -> In p ps0 -> p_player p = false ->
  stems ps0 ps -> survives p ps ->
  survives p
    (reap (map p_pid (filter (fun q => selected ByPattern q && p_owned q) ps))
          ps).
Proof.
  intros Hn Hp Hl Hs Hv. apply survives_reap; [exact Hv |].
  apply not_selected. intros q Hq Hsel E. simpl in Hsel.
  destruct (Hs q Hq) as [q0 [Hq0 [Ep El]]].
  assert (q0 = p) by (apply (unique_pid ps0); congruence). subst q0.
  congruence.
Qed.

#[local] Instance same_stdout_frame : Frame same_stdout.
Proof.
  split; unfold same_stdout; [reflexivity | intros a b c H1 H2; congruence].
Qed.

#[local] Instance same_listener_frame : Frame same_listener.
Proof.
  split; unfold same_listener.
  - intro w. now repeat split.
  - intros a b c [H1 [H2 H3]] [H4 [H5 H6]]. repeat split; congruence.
Qed.

#[local] Instance nothing_spawned_frame : Frame nothing_spawned.
Proof.
  split; unfold nothing_spawned.
  - intro w. repeat split. intros p' H. now exists p'.
  - intros a b c [H1 [H2 H3]] [H4 [H5 H6]]. repeat split; try congruence.
    intros p' H. destruct (H6 p' H) as [q [Hq Eq]].
    destruct (H3 q Hq) as [r [Hr Er]]. exists r. split; [exact Hr | congruence].
Qed.

(** Unfolds a library call in a goal about every world and splits on what
    the world holds. *)
Ltac by_world :=
  let w := fresh "w" in
  intro w;
  cbv beta iota zeta delta
      [tame keeps same_stdout same_listener same_terminal nothing_spawned
       world_of
       pid_file_exists read_pid_file write_pid_file pid_file_unlink py_int
       os_kill subprocess_run_pkill popen_player get_random_music_file
       print stdout_flush stop_flag_set tcgetattr setraw tcsetattr
       enoent eperm_on not_a_tty pid_overflow pkill_call ret raise];
  simpl;
  repeat match goal with
         | |- context [match ?x with _ => _ end] =>
             lazymatch x with
             | context [match _ with _ => _ end] => fail
             | _ => destruct x; simpl
             end
         end;
  simpl; try rewrite ?restores_app, ?spawns_app, ?app_nil_r;
  simpl; try rewrite ?app_nil_r; auto; try reflexivity.

Create HintDb py discriminated.

Lemma tame_print (line : string) : tame (print line).
Proof. by_world. Qed.

Lemma tame_pid_file_exists : tame pid_file_exists.
Proof. by_world. Qed.

Lemma tame_read_pid_file : tame read_pid_file.
Proof. by_world. Qed.

Lemma tame_write_pid_file (text : string) : tame (write_pid_file text).
Proof. by_world. Qed.

Lemma tame_pid_file_unlink : tame pid_file_unlink.
Proof. by_world. Qed.

Lemma tame_py_int (text : string) : tame (py_int text).
Proof. by_world. Qed.

Lemma tame_os_kill (pid : Z) (sig : Signal) : tame (os_kill pid sig).
Proof. by_world. Qed.

Lemma tame_subprocess_run_pkill (a : PkillArgs) : tame (subprocess_run_pkill a).
Proof. by_world. Qed.

Lemma tame_popen_player (music : string) : tame (popen_player music).
Proof. by_world. Qed.

Lemma tame_get_random_music_file : tame get_random_music_file.
Proof. by_world. Qed.

#[local] Hint Resolve tame_print tame_pid_file_exists tame_read_pid_file
  tame_write_pid_file tame_pid_file_unlink tame_py_int tame_os_kill
  tame_subprocess_run_pkill tame_popen_player tame_get_random_music_file : py.

(** Takes a statement apart along its [bind]s, [try]s and branches. *)
Ltac tame_steps :=
  repeat first
    [ progress intros
    | solve [auto with py]
    | apply tame_ret
    | apply tame_when
    | apply tame_if
    | apply tame_bind
    | apply tame_try_except ].

(** ** What the methods can raise *)

Lemma tame_is_music_playing : tame is_music_playing.
Proof. unfold is_music_playing. tame_steps. Qed.

Lemma tame_start_music_try (quiet : bool) : tame (start_music_try quiet).
Proof.
  unfold start_music_try. apply tame_bind; [apply tame_is_music_playing |].
  tame_steps.
Qed.

Lemma tame_stop_music_try (quiet : bool) : tame (stop_music_try quiet).
Proof. unfold stop_music_try, stop_music_kill. tame_steps. Qed.

Lemma print_when_returns (c : bool) (line : string) (w : World) :
  exists w', when c (print line) w = Ret tt w'.
Proof. destruct c; simpl; eexists; reflexivity. Qed.

Lemma start_music_returns (quiet : bool) (w : World) :
  exists w', start_music quiet w = Ret tt w'.
Proof.
  apply catch_all_returns.
  - apply tame_start_music_try.
  - intros e w0. apply print_when_returns.
Qed.

Lemma stop_music_returns (quiet : bool) (w : World) :
  exists w', stop_music quiet w = Ret tt w'.
Proof.
  apply catch_all_returns.
  - apply tame_stop_music_try.
  - intros e w0. apply print_when_returns.
Qed.

(** ** What the library calls leave alone *)

Lemma pid_file_exists_silent : keeps same_stdout pid_file_exists.
Proof. by_world. Qed.

Lemma read_pid_file_silent : keeps same_stdout read_pid_file.
Proof. by_world. Qed.

Lemma py_int_silent (text : string) : keeps same_stdout (py_int text).
Proof. by_world. Qed.

Lemma pid_file_unlink_silent : keeps same_stdout pid_file_unlink.
Proof. by_world. Qed.

Lemma os_kill_silent (pid : Z) (sig : Signal) : keeps same_stdout (os_kill pid sig).
Proof. by_world. Qed.

Lemma subprocess_run_pkill_silent (a : PkillArgs) : keeps same_stdout (subprocess_run_pkill a).
Proof. by_world. Qed.

Lemma get_random_music_file_silent : keeps same_stdout get_random_music_file.
Proof. by_world. Qed.

Lemma popen_player_silent (music : string) : keeps same_stdout (popen_player music).
Proof. by_world. Qed.

Lemma write_pid_file_silent (text : string) : keeps same_stdout (write_pid_file text).
Proof. by_world. Qed.

Lemma pid_file_exists_aside : keeps same_listener pid_file_exists.
Proof. by_world. Qed.

Lemma read_pid_file_aside : keeps same_listener read_pid_file.
Proof. by_world. Qed.

Lemma py_int_aside (text : string) : keeps same_listener (py_int text).
Proof. by_world. Qed.

Lemma pid_file_unlink_aside : keeps same_listener pid_file_unlink.
Proof. by_world. Qed.

Lemma os_kill_aside (pid : Z) (sig : Signal) : keeps same_listener (os_kill pid sig).
Proof. by_world. Qed.

Lemma subprocess_run_pkill_aside (a : PkillArgs) : keeps same_listener (subprocess_run_pkill a).
Proof. by_world. Qed.

Lemma print_aside (line : string) : keeps same_listener (print line).
Proof. by_world. Qed.

Lemma pid_file_exists_spawnless : keeps nothing_spawned pid_file_exists.
Proof. by_world; repeat split; eauto. Qed.

Lemma read_pid_file_spawnless : keeps nothing_spawned read_pid_file.
Proof. by_world; repeat split; eauto. Qed.

Lemma py_int_spawnless (text : string) : keeps nothing_spawned (py_int text).
Proof. by_world; repeat split; eauto. Qed.

Lemma pid_file_unlink_spawnless : keeps nothing_spawned pid_file_unlink.
Proof. by_world; repeat split; eauto. Qed.

Lemma print_spawnless (line : string) : keeps nothing_spawned (print line).
Proof. by_world; repeat split; eauto. Qed.

Lemma os_kill_spawnless (pid : Z) (sig : Signal) :
  keeps nothing_spawned (os_kill pid sig).
Proof.
  intro w. unfold os_kill, nothing_spawned. cbv zeta.
  destruct (negb (in_pid_range pid)); simpl.
  { rewrite spawns_app, app_nil_r. repeat split; eauto. }
  destruct (find (fun p => p_pid p =? pid) (procs w)) as [p |]; simpl.
  2: { rewrite spawns_app, app_nil_r. repeat split; eauto. }
  destruct (p_owned p); simpl; rewrite spawns_app, app_nil_r;
    repeat split; eauto.
  intros p' H. apply deliver_In in H. destruct H as [q [Hq [E _]]]. eauto.
Qed.

Lemma subprocess_run_pkill_spawnless (a : PkillArgs) :
  keeps nothing_spawned (subprocess_run_pkill a).
Proof.
  intro w. unfold subprocess_run_pkill, nothing_spawned. cbv zeta.
  assert (E : spawns [pkill_call a] = []) by now destruct a.
  simpl. destruct (has_pkill (host w)); simpl;
    rewrite spawns_app, E, app_nil_r; repeat split; eauto.
  intros p' H. apply reap_In in H. destruct H as [_ [q [Hq [Eq _]]]]. eauto.
Qed.

#[local] Hint Resolve
  pid_file_exists_silent read_pid_file_silent py_int_silent
  pid_file_unlink_silent os_kill_silent subprocess_run_pkill_silent
  get_random_music_file_silent popen_player_silent write_pid_file_silent
  pid_file_exists_aside read_pid_file_aside py_int_aside
  pid_file_unlink_aside os_kill_aside subprocess_run_pkill_aside print_aside
  pid_file_exists_spawnless read_pid_file_spawnless py_int_spawnless
  pid_file_unlink_spawnless print_spawnless os_kill_spawnless
  subprocess_run_pkill_spawnless
  : py.

(** Takes a statement apart along its [bind]s, [try]s and branches. *)
Ltac keeps_steps :=
  repeat first
    [ progress intros
    | solve [auto with py]
    | apply keeps_ret; solve [typeclasses eauto]
    | apply keeps_when; [solve [typeclasses eauto] |]
    | apply keeps_if
    | apply keeps_bind; [solve [typeclasses eauto] | |]
    | apply keeps_try_except; [solve [typeclasses eauto] | |] ].

(** ** What the methods leave alone *)

Lemma is_music_playing_silent : keeps same_stdout is_music_playing.
Proof. unfold is_music_playing. keeps_steps. Qed.

Lemma start_music_silent : keeps same_stdout (start_music true).
Proof.
  unfold start_music, start_music_try. simpl negb.
  apply keeps_try_except; [typeclasses eauto | | keeps_steps].
  apply keeps_bind; [typeclasses eauto | apply is_music_playing_silent |].
  keeps_steps.
Qed.

Lemma stop_music_silent : keeps same_stdout (stop_music true).
Proof.
  unfold stop_music, stop_music_try, stop_music_kill. simpl negb. keeps_steps.
Qed.

Lemma stop_music_aside (quiet : bool) : keeps same_listener (stop_music quiet).
Proof. unfold stop_music, stop_music_try, stop_music_kill. keeps_steps. Qed.

Lemma stop_music_spawnless (quiet : bool) :
  keeps nothing_spawned (stop_music quiet).
Proof. unfold stop_music, stop_music_try, stop_music_kill. keeps_steps. Qed.

(** * The playback controller *)

(** ** Stop never raises *)

(** C5. Stop never propagates an error: in every world and in either
    mode [stop_music] returns normally, and whatever the statements under
    its [try] raise is reduced to the line [Error stopping music: ...],
    which quiet mode suppresses. *)
Theorem stop_music_never_raises (quiet : bool) (w : World) :
  exists w',
    stop_music quiet w = Ret tt w'
    /\ match stop_music_try quiet w with
       | Ret _ w1 => w' = w1
       | Exc e w1 =>
           w' = if quiet then w1
                else emit ("Error stopping music: " ++ msg e) w1
       | Waiting _ => False
       end
    /\ (quiet = true -> stdout w' = stdout w).
Proof.
  destruct (stop_music_returns quiet w) as [w' E].
  exists w'. split; [exact E |]. split.
  - pose proof (tame_stop_music_try quiet w) as T.
    unfold stop_music, try_except in E.
    destruct (stop_music_try quiet w) as [[] w1 | e w1 | w1].
    + congruence.
    + rewrite (matches_Exception e T) in E.
      destruct quiet; cbv [when negb ret print] in E; congruence.
    + exact T.
  - intros ->. pose proof (stop_music_silent w) as S.
    rewrite E in S. exact S.
Qed.

(** ** The liveness check, case by case *)

Lemma process_identity_in_range (pid : Z) :
  process_identity pid = true -> in_pid_range pid = true.
Proof.
  unfold process_identity, in_pid_range. intro H.
  apply andb_true_iff in H. destruct H as [H1 H2].
  apply Z.ltb_lt in H1. rewrite H2, andb_true_r. apply Z.leb_le. lia.
Qed.

(** Runs the statement of the goal as far as the world is known. *)
Ltac py_run :=
  cbv beta iota zeta delta
      [bind ret raise when negb try_except try_finally
       pid_file_exists read_pid_file py_int];
  cbn [host pid_file procs next_pid stop_flag term stdout calls
       set_pid_file set_procs set_next_pid set_stop_flag set_term emit log
       world_of].

(** Rewrites with the facts at hand about the world. *)
Ltac use_facts :=
  repeat match goal with
         | H : ?l = _ |- context [?l] =>
             lazymatch l with _ _ => rewrite H end
         end.

Ltac py_go := repeat (py_run; progress use_facts); py_run.

Lemma is_music_playing_absent (w : World) :
  pid_file w = None -> is_music_playing w = Ret false w.
Proof.
  intro H. unfold is_music_playing, bind, pid_file_exists. now rewrite H.
Qed.

Lemma probe_ok_kill (w : World) (pid : Z) :
  probe_ok w pid = true ->
  os_kill pid SIG0 w = Ret tt (log (CKill pid SIG0) w).
Proof.
  unfold probe_ok, os_kill. intro H. apply andb_true_iff in H.
  destruct H as [Hr Hp]. cbv zeta. rewrite Hr. simpl.
  destruct (find (fun p => p_pid p =? pid) (procs w)) as [p |];
    [| discriminate].
  rewrite Hp. destruct w; reflexivity.
Qed.

Lemma is_music_playing_live (w : World) (pid : Z) :
  recorded w = Some pid -> probe_ok w pid = true ->
  is_music_playing w = Ret true (log (CKill pid SIG0) w).
Proof.
  unfold recorded. intros Hrec Hp.
  destruct (pid_file w) as [f |] eqn:Hf; [| discriminate].
  unfold is_music_playing. py_go.
  now rewrite (probe_ok_kill w pid Hp).
Qed.

(** An integer outside the range of [pid_t] makes [os.kill] raise
    [OverflowError], which the handler of the check does not list. *)
Lemma is_music_playing_overflow (w : World) (pid : Z) :
  recorded w = Some pid -> in_pid_range pid = false ->
  is_music_playing w = Exc (pid_overflow pid) (log (CKill pid SIG0) w).
Proof.
  unfold recorded. intros Hrec Hr.
  destruct (pid_file w) as [f |] eqn:Hf; [| discriminate].
  unfold is_music_playing, os_kill. py_go. unfold pid_overflow.
  now destruct ((pid <? -9223372036854775808) || (9223372036854775807 <? pid));
    [| destruct (pid <? 0)].
Qed.

(** Self-healing: a marker of the tool's user whose text is no integer, or
    is a process identity that fails the probe, makes the check answer no
    and remove the marker. *)
Lemma is_music_playing_self_heals (w : World) (f : File) :
  pid_file w = Some f -> ours f = true ->
  match parse_int (py_strip (content f)) with
  | Some pid => process_identity pid = true /\ probe_ok w pid = false
  | None => True
  end ->
  exists w',
    is_music_playing w = Ret false w'
    /\ pid_file w' = None
    /\ procs w' = procs w.
Proof.
  intros Hf Ho H.
  unfold is_music_playing, os_kill, pid_file_unlink.
  destruct (parse_int (py_strip (content f))) as [pid |] eqn:Hp.
  - destruct H as [Hr Hprobe]. apply process_identity_in_range in Hr.
    unfold probe_ok in Hprobe.
    rewrite Hr in Hprobe. simpl in Hprobe. py_go.
    destruct (find (fun p => p_pid p =? pid) (procs w)) as [p |];
      py_go; eexists; repeat split.
  - py_go. eexists; repeat split.
Qed.

(** On the host whose marker holds [abc] the check heals the marker, and
    Start, which runs the check first, goes on to start a session; Stop
    on the same host logs the [ValueError] and leaves the marker. *)
Example garbled_marker :
  (exists w', is_music_playing garbled = Ret false w' /\ pid_file w' = None)
  /\ (exists w', start_music true garbled = Ret tt w'
                 /\ pid_file w' = Some (mkFile "500" true)
                 /\ procs w' = [mkProc 500 4242 true true])
  /\ (exists w', stop_music true garbled = Ret tt w'
                 /\ pid_file w' = Some (mkFile "abc" true)).
Proof.
  split; [| split].
  - exists (world_of (is_music_playing garbled)).
    split; vm_compute; reflexivity.
  - exists (world_of (start_music true garbled)).
    (split; [| split]); vm_compute; reflexivity.
  - exists (world_of (stop_music true garbled)).
    split; vm_compute; reflexivity.
Qed.

(** On the host whose marker holds an integer that is no [pid_t], Start
    and Stop contain the [OverflowError] of the probe and of the signal,
    and the marker stays. *)
Example oversized_marker :
  (exists w', start_music true oversized = Ret tt w'
              /\ pid_file w' = pid_file oversized /\ procs w' = [])
  /\ (exists w', stop_music true oversized = Ret tt w'
                 /\ pid_file w' = pid_file oversized).
Proof.
  split.
  - exists (world_of (start_music true oversized)).
    (split; [| split]); vm_compute; reflexivity.
  - exists (world_of (stop_music true oversized)).
    split; vm_compute; reflexivity.
Qed.

(** C1. Single-instance Start: when the marker holds the identity of a
    live process, [start_music] reports that music is already playing
    (nothing when quiet), starts no process and leaves the marker and the
    process table as they are. *)
Theorem start_music_single_instance (quiet : bool) (w : World) :
  session_live w = true ->
  exists w',
    start_music quiet w = Ret tt w'
    /\ pid_file w' = pid_file w
    /\ procs w' = procs w
    /\ next_pid w' = next_pid w
    /\ spawns (calls w') = spawns (calls w)
    /\ stdout w' = stdout w ++ (if quiet then []
                                else ["Elevator music is already playing"]).
Proof.
  unfold session_live. intro H.
  destruct (recorded w) as [pid |] eqn:Hrec; [| discriminate].
  unfold start_music, start_music_try, try_except, bind.
  rewrite (is_music_playing_live w pid Hrec H).
  destruct quiet; simpl; eexists; (split; [reflexivity |]); simpl;
    rewrite spawns_app, ?app_nil_r; repeat split; reflexivity.
Qed.

(** The playing session of the sample host is live, and a second Start
    there does nothing. *)
Lemma start_music_single_instance_witness :
  session_live playing = true
  /\ exists w',
       start_music false playing = Ret tt w'
       /\ pid_file w' = pid_file playing
       /\ procs w' = procs playing
       /\ next_pid w' = next_pid playing
       /\ spawns (calls w') = spawns (calls playing)
       /\ stdout w' = stdout playing ++ ["Elevator music is already playing"].
Proof.
  split; [reflexivity |].
  apply (start_music_single_instance false playing). reflexivity.
Defined.

(** C2. The liveness check on a marker that holds 99999999999999999999:
    the text is an integer, the probe raises [OverflowError], which is
    neither [OSError] nor [ValueError]; the check raises it to its caller
    and the marker stays. *)
Theorem is_music_playing_raises_on_oversized_identity :
  exists e w',
    is_music_playing oversized = Exc e w'
    /\ cls e = OverflowError
    /\ matches [OSError; ValueError] e = false
    /\ pid_file w' = pid_file oversized.
Proof.
  eexists. eexists. split; [| split; [| split]].
  - apply (is_music_playing_overflow oversized 99999999999999999999);
      reflexivity.
  - reflexivity.
  - reflexivity.
  - reflexivity.
Qed.

(** ** Calls that reach the tool *)

Lemma skipn_app_exact {A} (l cs : list A) :
  skipn (List.length l) (l ++ cs) = cs.
Proof. induction l as [| a l IH]; simpl; auto. Qed.

#[local] Instance spares_frame : Frame spares.
Proof.
  split; unfold spares.
  - intro w. split; [reflexivity |]. exists []. now rewrite app_nil_r.
  - intros a b c [H1 [cs1 [E1 K1]]] [H2 [cs2 [E2 K2]]].
    split; [congruence |]. exists (cs1 ++ cs2).
    rewrite E2, E1, app_assoc. split; [reflexivity |].
    rewrite existsb_app, K1. rewrite H1 in K2. exact K2.
Qed.

Lemma spares_tool_killed (w w' : World) :
  spares w w' -> tool_killed w w' = false.
Proof.
  intros [_ [cs [E K]]]. unfold tool_killed, new_calls.
  now rewrite E, skipn_app_exact.
Qed.

(** Decides which handler takes the exception of a library call. *)
Ltac py_exn :=
  cbv delta [enoent eperm_on pid_overflow];
  cbv beta iota delta
      [matches existsb issubclass mro mro_fuel base class_eqb cls orb].

Ltac py_all := repeat (progress (py_go; py_exn)).

(** Collects the calls a statement has made. *)
Ltac spared :=
  split; [reflexivity |]; cbn [calls log set_pid_file set_procs emit];
  rewrite <- ?app_assoc;
  first [ eexists; split; [reflexivity |]
        | exists []; split; [now rewrite app_nil_r |] ].

(** Stop makes no call that reaches the tool when the marker is ASCII
    text that holds a foreign identity, or no integer, and the tool is not
    matched by the sweep. *)
Lemma stop_music_spares_tool (quiet : bool) (w : World) :
  stop_spares_tool w = true -> spares w (world_of (stop_music quiet w)).
Proof.
  unfold stop_spares_tool. intro H.
  apply andb_true_iff in H. destruct H as [Hl H].
  apply negb_true_iff in Hl.
  unfold stop_music, stop_music_try, stop_music_kill, subprocess_run_pkill,
    os_kill, pid_file_unlink, print.
  destruct (pid_file w) as [f |] eqn:Hf; py_go.
  - apply andb_true_iff in H. destruct H as [_ H].
    destruct (parse_int (py_strip (content f))) as [pid |] eqn:Hp; py_go.
    + unfold foreign_identity in H.
      apply andb_true_iff in H. destruct H as [H H3].
      apply andb_true_iff in H. destruct H as [H1 H2].
      apply Z.ltb_lt in H1. apply negb_true_iff in H2, H3.
      assert (H0 : (pid =? 0) = false) by (apply Z.eqb_neq; lia).
      destruct (has_pkill (host w)) eqn:Hk; py_all.
      * destruct (in_pid_range pid); py_all.
        -- match goal with
           | |- context [find ?g ?l] => destruct (find g l) as [q |]
           end; [destruct (p_owned q) |]; py_all;
             destruct (ours f); py_all;
             destruct quiet; py_all; spared; cbn;
             rewrite ?Hk, ?Hl, ?H0, ?H2, ?H3; reflexivity.
        -- destruct quiet; py_all; spared; cbn;
             rewrite ?Hk, ?Hl, ?H0, ?H2, ?H3; reflexivity.
      * destruct (ours f); py_all;
          destruct quiet; py_all; spared; cbn;
          rewrite ?Hk, ?Hl, ?H0, ?H2, ?H3; reflexivity.
    + py_all. destruct quiet; py_all; spared; reflexivity.
  - destruct (has_pkill (host w)) eqn:Hk; py_all;
      destruct quiet; py_all; spared; cbn;
      rewrite ?Hk, ?Hl; reflexivity.
Qed.

Lemma stop_music_tool_alive (quiet : bool) (w w' : World) :
  stop_spares_tool w = true -> stop_music quiet w = Ret tt w' ->
  tool_killed w w' = false.
Proof.
  intros Hs E. pose proof (stop_music_spares_tool quiet w Hs) as S.
  rewrite E in S. now apply spares_tool_killed.
Qed.

Ltac no_call :=
  intro w; unfold spares; split; [reflexivity |]; exists [];
  split; [now rewrite app_nil_r | reflexivity].

Lemma pid_file_exists_spares : keeps spares pid_file_exists.
Proof. no_call. Qed.

Lemma read_pid_file_spares : keeps spares read_pid_file.
Proof.
  intro w. unfold read_pid_file. destruct (pid_file w); revert w; no_call.
Qed.

Lemma py_int_spares (text : string) : keeps spares (py_int text).
Proof.
  intro w. unfold py_int. destruct (parse_int text); revert w; no_call.
Qed.

Lemma print_spares (line : string) : keeps spares (print line).
Proof. no_call. Qed.

Lemma get_random_music_file_spares : keeps spares get_random_music_file.
Proof.
  intro w. unfold get_random_music_file.
  destruct (music_entries (host w)) as [entries |];
    [destruct (flat_map (glob entries) patterns) |]; revert w; no_call.
Qed.

Lemma probe_spares (pid : Z) : keeps spares (os_kill pid SIG0).
Proof.
  intro w. unfold os_kill. cbv zeta.
  destruct (negb (in_pid_range pid)); [spared; reflexivity |].
  cbn [procs log].
  destruct (find (fun p => p_pid p =? pid) (procs w)) as [p |];
    [destruct (p_owned p) |]; spared; reflexivity.
Qed.

Lemma pid_file_unlink_spares : keeps spares pid_file_unlink.
Proof.
  intro w. unfold pid_file_unlink. cbv zeta. cbn [pid_file log].
  destruct (pid_file w) as [f |]; [destruct (ours f) |]; spared; reflexivity.
Qed.

Lemma popen_player_spares (music : string) :
  keeps spares (popen_player music).
Proof.
  intro w. unfold popen_player. cbv zeta. cbn [host log].
  destruct (has_bash (host w)); spared; reflexivity.
Qed.

Lemma write_pid_file_spares (text : string) :
  keeps spares (write_pid_file text).
Proof.
  intro w. unfold write_pid_file. cbv zeta. cbn [pid_file log].
  destruct (pid_file w) as [f |]; [destruct (ours f) |]; spared; reflexivity.
Qed.

(** Start sends no signal but the probe: it cannot reach the tool. *)
Lemma start_music_spares_tool (quiet : bool) :
  keeps spares (start_music quiet).
Proof.
  pose proof pid_file_exists_spares. pose proof read_pid_file_spares.
  pose proof py_int_spares. pose proof print_spares.
  pose proof get_random_music_file_spares. pose proof probe_spares.
  pose proof pid_file_unlink_spares. pose proof popen_player_spares.
  pose proof write_pid_file_spares.
  unfold start_music, start_music_try, is_music_playing.
  repeat first
    [ progress intros
    | solve [auto]
    | apply keeps_ret; solve [typeclasses eauto]
    | apply keeps_when; [solve [typeclasses eauto] |]
    | apply keeps_if
    | apply keeps_bind; [solve [typeclasses eauto] | |]
    | apply keeps_try_except; [solve [typeclasses eauto] | |] ].
Qed.

Lemma start_music_tool_alive (quiet : bool) (w w' : World) :
  start_music quiet w = Ret tt w' -> tool_killed w w' = false.
Proof.
  intro E. pose proof (start_music_spares_tool quiet w) as S.
  rewrite E in S. now apply spares_tool_killed.
Qed.

#[local] Instance marker_kept_or_gone_frame : Frame marker_kept_or_gone.
Proof.
  split; unfold marker_kept_or_gone.
  - intro w. auto.
  - intros a b c [H1 [E1 | E1]] [H2 [E2 | E2]]; split; try congruence;
      first [left; congruence | right; congruence].
Qed.

Ltac by_marker :=
  let w := fresh "w" in
  intro w;
  cbv beta iota zeta delta
      [marker_kept_or_gone pid_file_exists read_pid_file pid_file_unlink
       py_int os_kill subprocess_run_pkill print];
  cbn [host pid_file log set_pid_file set_procs emit world_of];
  repeat match goal with
         | |- context [match ?x with _ => _ end] =>
             lazymatch x with
             | context [match _ with _ => _ end] => fail
             | _ => destruct x eqn:?;
                    cbn [host pid_file log set_pid_file set_procs emit world_of]
             end
         end;
  (split; [reflexivity | first [left; congruence | right; congruence]]).

(** Stop never writes the marker. *)
Lemma stop_music_marker (quiet : bool) :
  keeps marker_kept_or_gone (stop_music quiet).
Proof.
  assert (L1 : keeps marker_kept_or_gone pid_file_exists) by by_marker.
  assert (L2 : keeps marker_kept_or_gone read_pid_file) by by_marker.
  assert (L3 : forall t, keeps marker_kept_or_gone (py_int t))
    by (intro; by_marker).
  assert (L4 : forall p s, keeps marker_kept_or_gone (os_kill p s))
    by (intros; by_marker).
  assert (L5 : keeps marker_kept_or_gone pid_file_unlink) by by_marker.
  assert (L6 : forall a, keeps marker_kept_or_gone (subprocess_run_pkill a))
    by (intro; by_marker).
  assert (L7 : forall l, keeps marker_kept_or_gone (print l))
    by (intro; by_marker).
  unfold stop_music, stop_music_try, stop_music_kill.
  repeat first
    [ progress intros
    | solve [auto]
    | apply keeps_ret; solve [typeclasses eauto]
    | apply keeps_when; [solve [typeclasses eauto] |]
    | apply keeps_if
    | apply keeps_bind; [solve [typeclasses eauto] | |]
    | apply keeps_try_except; [solve [typeclasses eauto] | |] ].
Qed.

(** A Stop that cannot reach the tool is followed by one that cannot
    either. *)
Lemma stop_spares_tool_kept (w w' : World) :
  marker_kept_or_gone w w' ->
  stop_spares_tool w = true -> stop_spares_tool w' = true.
Proof.
  unfold marker_kept_or_gone, stop_spares_tool. intros [Hh [E | E]] H;
    rewrite Hh, E; [exact H |].
  apply andb_true_iff in H. destruct H as [H _]. now rewrite H.
Qed.

(** ** The hook *)

(** C10 as stated fails for [hook "stop"] on a marker that holds 0: Stop
    sends SIGTERM to identity 0, which is the tool's own process group; the
    tool is terminated by its own signal and returns no status. *)
Lemma hook_stop_signals_own_group :
  recorded self_marked = Some 0
  /\ In (CKill 0 SIGTERM) (calls (world_of (hook "stop" self_marked)))
  /\ tool_killed self_marked (world_of (hook "stop" self_marked)) = true.
Proof.
  split; [vm_compute; reflexivity |].
  split; [vm_compute; auto |]. vm_compute. reflexivity.
Qed.

(** C10, amended. The hook acknowledges: in every world [hook "start"]
    prints the acknowledgement and nothing else and returns 0, whether or
    not playback could be started, and no call it makes reaches the tool;
    [hook "stop"] returns 0 as well and prints nothing, in every world in
    which Stop cannot reach the tool (the marker, if any, is ASCII text
    that holds no integer or a positive identity that is neither the
    tool's nor its parent's, and the tool's own command line does not
    match the sweep). *)
Theorem hook_always_acknowledges (w : World) :
  (exists w', hook "start" w = Ret 0 w'
              /\ stdout w' = stdout w ++ [allow_json]
              /\ tool_killed w w' = false)
  /\ (stop_spares_tool w = true ->
      exists w', hook "stop" w = Ret 0 w'
                 /\ stdout w' = stdout w
                 /\ tool_killed w w' = false).
Proof.
  split.
  - destruct (start_music_returns true w) as [w1 E].
    pose proof (start_music_silent w) as S. rewrite E in S.
    unfold same_stdout in S. simpl in S.
    pose proof (start_music_tool_alive true w w1 E) as K.
    unfold hook, bind. rewrite String.eqb_refl. rewrite E.
    eexists. split; [reflexivity |]. split; [simpl; now rewrite S |].
    exact K.
  - intro Hs. destruct (stop_music_returns true w) as [w1 E].
    pose proof (stop_music_silent w) as S. rewrite E in S.
    unfold same_stdout in S. simpl in S.
    pose proof (stop_music_tool_alive true w w1 Hs E) as K.
    unfold hook, bind.
    replace (String.eqb "stop" "start") with false by reflexivity.
    rewrite String.eqb_refl. rewrite E.
    eexists. split; [reflexivity |]. split; [exact S | exact K].
Qed.

(** Both hooks on the playing sample host. *)
Lemma hook_always_acknowledges_witness :
  stop_spares_tool playing = true
  /\ (exists w', hook "start" playing = Ret 0 w'
                 /\ stdout w' = stdout playing ++ [allow_json]
                 /\ tool_killed playing w' = false)
  /\ (exists w', hook "stop" playing = Ret 0 w'
                 /\ stdout w' = stdout playing
                 /\ tool_killed playing w' = false).
Proof.
  split; [reflexivity |]. split.
  - apply (proj1 (hook_always_acknowledges playing)).
  - apply (proj2 (hook_always_acknowledges playing) eq_refl).
Defined.

(** ** Stop, case by case *)

(** The inner [try] of Stop always comes back when the identity fits a
    [pid_t]: a missing pkill, a dead process and a process of another user
    all raise an [OSError]. It touches neither the marker nor the output. *)
Lemma stop_music_kill_returns (pid : Z) (w : World) :
  in_pid_range pid = true ->
  exists w1,
    stop_music_kill pid w = Ret tt w1
    /\ pid_file w1 = pid_file w
    /\ host w1 = host w
    /\ stdout w1 = stdout w.
Proof.
  intro Hr. unfold stop_music_kill, subprocess_run_pkill, os_kill. py_go.
  destruct (has_pkill (host w)); py_go.
  - match goal with
    | |- context [find ?f ?l] => destruct (find f l) as [p |]
    end; [destruct (p_owned p) |]; py_go; eexists; repeat split.
  - eexists; repeat split.
Qed.

(** The sweep at the end of Stop, under the outer handler: it comes back
    and leaves the marker as it is. *)
Lemma sweep_returns (quiet : bool) (w : World) :
  exists w',
    try_except (subprocess_run_pkill ByPattern) [Exception]
      (fun e => when (negb quiet) (print ("Error stopping music: " ++ msg e))) w
    = Ret tt w'
    /\ pid_file w' = pid_file w
    /\ host w' = host w
    /\ stdout w' = stdout w ++ (if has_pkill (host w) then []
                                else if quiet then []
                                else [("Error stopping music: "
                                       ++ msg (enoent "pkill"))%string]).
Proof.
  unfold subprocess_run_pkill. py_go.
  destruct (has_pkill (host w)); py_go.
  - eexists. repeat split. now rewrite app_nil_r.
  - destruct quiet; eexists; repeat split. cbn. now rewrite app_nil_r.
Qed.

(** With no marker, Stop reports that nothing is playing, sweeps, and
    comes back with no marker. *)
Lemma stop_music_absent (quiet : bool) (w : World) :
  pid_file w = None ->
  exists w',
    stop_music quiet w = Ret tt w'
    /\ pid_file w' = None
    /\ host w' = host w
    /\ stdout w' = stdout w ++ not_playing_report (host w) quiet.
Proof.
  intro Hf. unfold stop_music, stop_music_try, not_playing_report,
    subprocess_run_pkill, print.
  py_go. destruct quiet; py_go; destruct (has_pkill (host w)); py_go;
    eexists; repeat split; cbn; rewrite ?app_nil_r, <- ?app_assoc; auto.
Qed.

(** With a marker Stop can clear, it does. *)
Lemma stop_music_present (quiet : bool) (w : World) (f : File) (pid : Z) :
  pid_file w = Some f -> ours f = true ->
  parse_int (py_strip (content f)) = Some pid -> in_pid_range pid = true ->
  exists w', stop_music quiet w = Ret tt w' /\ pid_file w' = None.
Proof.
  intros Hf Ho Hp Hr.
  destruct (stop_music_kill_returns pid w Hr) as [w1 [E1 [F1 _]]].
  unfold stop_music, stop_music_try. py_go.
  unfold pid_file_unlink, subprocess_run_pkill, print. py_go.
  destruct quiet; py_go; destruct (has_pkill (host w1)); py_go;
    eexists; split; reflexivity.
Qed.

Lemma stop_music_clears (quiet : bool) (w : World) :
  stoppable w = true ->
  exists w', stop_music quiet w = Ret tt w' /\ pid_file w' = None.
Proof.
  unfold stoppable. intro H.
  destruct (pid_file w) as [f |] eqn:Hf.
  - apply andb_true_iff in H. destruct H as [Ho H].
    destruct (parse_int (py_strip (content f))) as [pid |] eqn:Hp;
      [| discriminate].
    apply process_identity_in_range in H.
    now apply (stop_music_present quiet w f pid).
  - destruct (stop_music_absent quiet w Hf) as [w' [E [F _]]]. now exists w'.
Qed.

Lemma stop_music_times_keeps (R : World -> World -> Prop) `{Frame R}
      (n : nat) (quiet : bool) :
  keeps R (stop_music quiet) -> keeps R (stop_music_times n quiet).
Proof.
  intro Hs. induction n as [| n IH]; simpl.
  - now apply keeps_ret.
  - apply keeps_bind; auto.
Qed.

Lemma reap_nobody (ps : list Proc) : reap [] ps = ps.
Proof.
  unfold reap. induction ps as [| p ps IH]; [reflexivity |].
  change (adopt [] p
          :: map (adopt [])
               (filter (fun p => negb (mem (p_pid p) [])) ps) = p :: ps).
  now rewrite IH.
Qed.

Lemma filter_none {A} (f : A -> bool) (l : list A) :
  (forall x, In x l -> f x = false) -> filter f l = [].
Proof.
  induction l as [| a l IH]; intro H; [reflexivity |].
  simpl. rewrite (H a) by now left. apply IH. intros x Hx. apply H. now right.
Qed.

(** A second sweep finds nothing left to terminate. *)
Lemma swept_twice (h : Host) (ps : list Proc) :
  swept h (swept h ps) = swept h ps.
Proof.
  unfold swept. destruct (has_pkill h); [| reflexivity].
  set (dead := map p_pid
                 (filter (fun p => selected ByPattern p && p_owned p) ps)).
  rewrite (filter_none _ (reap dead ps)); [apply reap_nobody |].
  intros q' Hq. unfold reap in Hq. apply in_map_iff in Hq.
  destruct Hq as [q [<- Hq]]. apply filter_In in Hq. destruct Hq as [Hin Hd].
  apply negb_true_iff in Hd.
  destruct (selected ByPattern (adopt dead q) && p_owned (adopt dead q)) eqn:S;
    [| reflexivity].
  exfalso. assert (M : mem (p_pid q) dead = true); [| congruence].
  apply mem_In. unfold dead. apply in_map. apply filter_In.
  split; [exact Hin |]. simpl in S |- *.
  now rewrite adopt_player, adopt_owned in S.
Qed.

(** With no marker, Stop reports, sweeps, and comes back. *)
Lemma stop_music_absent_sweeps (quiet : bool) (w : World) :
  pid_file w = None ->
  exists w',
    stop_music quiet w = Ret tt w'
    /\ pid_file w' = None
    /\ host w' = host w
    /\ stdout w' = stdout w ++ not_playing_report (host w) quiet
    /\ procs w' = swept (host w) (procs w).
Proof.
  intro Hf. unfold stop_music, stop_music_try, not_playing_report,
    subprocess_run_pkill, print, swept.
  py_go. destruct quiet; py_go; destruct (has_pkill (host w)); py_go;
    eexists; repeat split; cbn; rewrite ?app_nil_r, <- ?app_assoc; auto.
Qed.

(** C6 as stated fails when a player has been left behind: with no
    marker, Stop still sweeps by command line and terminates the player, so
    the call is not without effect. *)
Lemma stop_music_sweeps_orphan :
  pid_file orphaned = None
  /\ procs orphaned = [mkProc 900 1 true true]
  /\ exists w', stop_music false orphaned = Ret tt w'
                /\ pid_file w' = None
                /\ procs w' = []
                /\ calls w' = [CPkillPattern].
Proof.
  split; [reflexivity |]. split; [reflexivity |].
  exists (world_of (stop_music false orphaned)).
  (split; [| split; [| split]]); vm_compute; reflexivity.
Qed.

(** C6, amended. Stop is idempotent when nothing is playing: with no
    marker (and the tool's own command line not matched by the sweep), any
    number of consecutive calls of [stop_music] returns normally, leaves
    the marker absent, starts nothing, leaves the listener's state alone,
    prints one report per call (none when quiet) and reaches the tool with
    no call; the first call sweeps the players, and the calls that follow
    leave the process table as the first one left it. *)
Theorem stop_music_idempotent (n : nat) (quiet : bool) (w : World) :
  pid_file w = None -> tool_player (host w) = false ->
  exists w',
    stop_music_times n quiet w = Ret tt w'
    /\ pid_file w' = None
    /\ stdout w' = stdout w
                   ++ List.concat (repeat (not_playing_report (host w) quiet) n)
    /\ nothing_spawned w w'
    /\ same_listener w w'
    /\ procs w' = match n with
                  | O => procs w
                  | S _ => swept (host w) (procs w)
                  end
    /\ tool_killed w w' = false.
Proof.
  intros Hf Hl.
  assert (E : exists w',
             stop_music_times n quiet w = Ret tt w'
             /\ pid_file w' = None
             /\ stdout w' = stdout w
                  ++ List.concat (repeat (not_playing_report (host w) quiet) n)
             /\ procs w' = match n with
                           | O => procs w
                           | S _ => swept (host w) (procs w)
                           end
             /\ spares w w').
  { revert w Hf Hl. induction n as [| n IH]; intros w Hf Hl.
    - exists w. split; [reflexivity |]. split; [exact Hf |].
      split; [simpl; now rewrite app_nil_r |].
      split; [reflexivity | apply frame_refl].
    - destruct (stop_music_absent_sweeps quiet w Hf)
        as [w1 [E1 [F1 [H1 [O1 P1]]]]].
      assert (S1 : spares w w1).
      { pose proof (stop_music_spares_tool quiet w) as S. rewrite E1 in S.
        apply S. unfold stop_spares_tool. now rewrite Hf, Hl. }
      rewrite <- H1 in Hl.
      destruct (IH w1 F1 Hl) as [w2 [E2 [F2 [O2 [P2 S2]]]]].
      exists w2. simpl. unfold bind. rewrite E1.
      split; [exact E2 |]. split; [exact F2 |].
      split; [rewrite O2, O1, H1; now rewrite app_assoc |].
      split; [| now apply (frame_trans w w1 w2)].
      rewrite P2, P1, H1. destruct n; [reflexivity | apply swept_twice]. }
  destruct E as [w' [E [F [O [P S]]]]]. exists w'.
  pose proof (stop_music_times_keeps nothing_spawned n quiet
                (stop_music_spawnless quiet) w) as K1.
  pose proof (stop_music_times_keeps same_listener n quiet
                (stop_music_aside quiet) w) as K2.
  rewrite E in K1, K2. repeat split; auto; try apply K1; try apply K2.
  now apply spares_tool_killed.
Qed.

(** Three calls of Stop on the host with the player left behind: the first
    call terminates it, the others find nothing. *)
Lemma stop_music_idempotent_witness :
  pid_file orphaned = None
  /\ tool_player (host orphaned) = false
  /\ exists w',
       stop_music_times 3 false orphaned = Ret tt w'
       /\ pid_file w' = None
       /\ stdout w' = stdout orphaned
                      ++ List.concat
                           (repeat (not_playing_report (host orphaned) false) 3)
       /\ nothing_spawned orphaned w'
       /\ same_listener orphaned w'
       /\ procs w' = swept (host orphaned) (procs orphaned)
       /\ tool_killed orphaned w' = false.
Proof.
  split; [reflexivity |]. split; [reflexivity |].
  apply (stop_music_idempotent 3 false orphaned); reflexivity.
Defined.

(** C9 as stated fails on the session of another user: the signal to
    their driver raises [PermissionError], the inner handler swallows it,
    and then the marker, which is theirs too, cannot be unlinked; Stop
    logs the error and the marker stays. *)
Lemma stop_music_leaves_foreign_marker :
  pid_file foreign = Some (mkFile "500" false)
  /\ (exists e w1, os_kill 500 SIGTERM foreign = Exc e w1
                   /\ issubclass (cls e) OSError = true)
  /\ exists w', stop_music false foreign = Ret tt w'
                /\ pid_file w' = Some (mkFile "500" false).
Proof.
  split; [reflexivity |]. split.
  - eexists. eexists. split; reflexivity.
  - eexists. split; reflexivity.
Qed.

(** C9, amended. Stop removes the marker even when termination fails:
    when the marker belongs to the tool's user and is ASCII text that
    holds a process identity which is neither the tool's own nor its
    parent's (and the tool's own command line does not match the sweep),
    [stop_music] reaches the unlink and leaves no marker, whatever the
    process table holds (the recorded process dead or not signalable) and
    whether or not pkill can be run; no call it makes reaches the tool. *)
Theorem stop_music_removes_marker
        (quiet : bool) (w : World) (f : File) (pid : Z) :
  pid_file w = Some f -> ours f = true ->
  parse_int (py_strip (content f)) = Some pid -> process_identity pid = true ->
  stop_spares_tool w = true ->
  exists w',
    stop_music quiet w = Ret tt w'
    /\ pid_file w' = None
    /\ In CUnlink (calls w')
    /\ tool_killed w w' = false.
Proof.
  intros Hf Ho Hp Hr Hs. apply process_identity_in_range in Hr.
  assert (S : exists w', stop_music quiet w = Ret tt w'
                         /\ pid_file w' = None /\ In CUnlink (calls w')).
  { destruct (stop_music_kill_returns pid w Hr) as [w1 [E1 [F1 _]]].
    unfold stop_music, stop_music_try. py_go.
    unfold pid_file_unlink, subprocess_run_pkill, print. py_go.
    destruct quiet; py_go; destruct (has_pkill (host w1)); py_go;
      eexists; (split; [reflexivity |]); (split; [reflexivity |]); cbn;
      rewrite ?in_app_iff; cbn; tauto. }
  destruct S as [w' [E [F C]]]. exists w'.
  repeat split; auto. now apply (stop_music_tool_alive quiet).
Qed.

(** A stale marker on a host without pkill: the sweep of the children
    and the signal both fail, and the marker is removed all the same. *)
Lemma stop_music_removes_marker_witness :
  pid_file stale = Some (mkFile "500" true)
  /\ stop_spares_tool stale = true
  /\ (exists e w1, os_kill 500 SIGTERM stale = Exc e w1
                   /\ cls e = ProcessLookupError)
  /\ exists w',
       stop_music false stale = Ret tt w'
       /\ pid_file w' = None
       /\ In CUnlink (calls w')
       /\ tool_killed stale w' = false.
Proof.
  split; [reflexivity |]. split; [reflexivity |]. split.
  - eexists. eexists. split; reflexivity.
  - apply (stop_music_removes_marker false stale (mkFile "500" true) 500);
      reflexivity.
Defined.

(** ** The task runner *)

(** C3 as stated fails on a host where another user's session is live:
    the wrapped command exits with 0, the task runner returns 0, and the
    marker, which Stop may not unlink, remains. *)
Lemma run_with_music_leaves_foreign_marker :
  exists w',
    run_with_music (exits 0) (CmdStr "make") foreign = Ret 0 w'
    /\ pid_file w' = Some (mkFile "500" false).
Proof.
  exists (world_of (run_with_music (exits 0) (CmdStr "make") foreign)).
  split; vm_compute; reflexivity.
Qed.

(** C3, amended. Guaranteed cleanup and status propagation: the task
    runner calls Start, which reaches the tool with no call, and runs the
    command; a command that never ends keeps the task runner waiting.
    Whenever the Stop that follows cannot reach the tool (the marker it
    finds, if any, is ASCII text that holds no integer or a positive
    identity that is neither the tool's nor its parent's, and the tool's
    own command line does not match the sweep), Stop runs exactly once on
    every exit path and returns without reaching the tool; the task runner
    then returns the command's exit status unchanged when the command
    returns, and re-raises what the command raised (for instance when it
    cannot be launched). No marker remains afterwards whenever the marker
    found when Stop runs, if any, belongs to the tool's user and holds a
    process identity. *)
Theorem run_with_music_cleans_up
        (subprocess_run : Command -> bool -> M Z) (command : Command)
        (w : World) :
  exists w1,
    start_music false w = Ret tt w1
    /\ tool_killed w w1 = false
    /\ match subprocess_run command (is_str command) w1 with
       | Ret status w2 =>
           stop_spares_tool w2 = true ->
           exists w3,
             stop_music false w2 = Ret tt w3
             /\ tool_killed w2 w3 = false
             /\ run_with_music subprocess_run command w = Ret status w3
             /\ (stoppable w2 = true -> pid_file w3 = None)
       | Exc e w2 =>
           stop_spares_tool w2 = true ->
           exists w3,
             stop_music false w2 = Ret tt w3
             /\ tool_killed w2 w3 = false
             /\ run_with_music subprocess_run command w = Exc e w3
             /\ (stoppable w2 = true -> pid_file w3 = None)
       | Waiting w2 =>
           run_with_music subprocess_run command w = Waiting w2
       end.
Proof.
  destruct (start_music_returns false w) as [w1 E1].
  exists w1. split; [exact E1 |].
  split; [now apply (start_music_tool_alive false) |].
  unfold run_with_music, bind, try_finally. rewrite E1.
  replace (if is_str command then subprocess_run command true
           else subprocess_run command false)
    with (subprocess_run command (is_str command))
    by now destruct command.
  destruct (subprocess_run command (is_str command) w1)
    as [status w2 | e w2 | w2]; [| | reflexivity];
    intro Hs;
    destruct (stop_music_returns false w2) as [w3 E3];
    exists w3; rewrite E3; (split; [reflexivity |]);
    (split; [now apply (stop_music_tool_alive false) |]);
    (split; [reflexivity |]);
    intro Hc; destruct (stop_music_clears false w2 Hc) as [w3' [E3' F3]];
    congruence.
Qed.

(** A command that exits with 3, run on the idle sample host: Start has
    written the marker of the new session, Stop cannot reach the tool, the
    status comes back and no marker remains. *)
Lemma run_with_music_cleans_up_witness :
  exists w1 w3,
    start_music false idle = Ret tt w1
    /\ stop_spares_tool w1 = true
    /\ stop_music false w1 = Ret tt w3
    /\ tool_killed w1 w3 = false
    /\ run_with_music (exits 3) (CmdStr "make") idle = Ret 3 w3
    /\ pid_file w3 = None.
Proof.
  destruct (run_with_music_cleans_up (exits 3) (CmdStr "make") idle)
    as [w1 [E1 [_ H]]].
  assert (W : w1 = world_of (start_music false idle))
    by (rewrite E1; reflexivity).
  cbn [exits ret] in H.
  assert (Hs : stop_spares_tool w1 = true)
    by (rewrite W; vm_compute; reflexivity).
  assert (Hc : stoppable w1 = true)
    by (rewrite W; vm_compute; reflexivity).
  destruct (H Hs) as [w3 [E3 [K [R F]]]].
  exists w1, w3. auto 8.
Defined.

(** The task runner around commands that exit with 0, 1 and 127, and
    around one that cannot be launched, on the idle sample host: the
    status comes back unchanged and no marker remains. *)
Example run_with_music_exit_codes :
  (forall status, In status [0; 1; 127] ->
     exists w', run_with_music (exits status) (CmdStr "job") idle = Ret status w'
                /\ pid_file w' = None /\ procs w' = [])
  /\ (exists w', run_with_music unlaunchable (CmdStr "nosuch") idle = Ret 127 w'
                 /\ pid_file w' = None /\ procs w' = [])
  /\ (exists e w', run_with_music unlaunchable (CmdArgv ["nosuch"]) idle = Exc e w'
                   /\ cls e = FileNotFoundError
                   /\ pid_file w' = None /\ procs w' = []).
Proof.
  split; [| split].
  - intros status [<- | [<- | [<- | []]]];
      match goal with
      | |- exists w', ?run = _ /\ _ => exists (world_of run)
      end; (split; [| split]); vm_compute; reflexivity.
  - exists (world_of (run_with_music unlaunchable (CmdStr "nosuch") idle)).
    (split; [| split]); vm_compute; reflexivity.
  - exists (enoent "nosuch").
    exists (world_of (run_with_music unlaunchable (CmdArgv ["nosuch"]) idle)).
    (split; [| split; [| split]]); vm_compute; reflexivity.
Qed.

(** ** Which processes Stop terminates *)

(** The inner [try] of Stop on a host with pkill: the children are swept
    before the recorded process is signalled; afterwards no child that
    the tool's user may signal is left, nor is the recorded process when
    the probe would have found it. *)
Lemma stop_music_kill_effect (pid : Z) (w : World) :
  in_pid_range pid = true -> has_pkill (host w) = true ->
  exists w1,
    stop_music_kill pid w = Ret tt w1
    /\ pid_file w1 = pid_file w
    /\ host w1 = host w
    /\ stdout w1 = stdout w
    /\ calls w1 = calls w ++ [CPkillParent pid; CKill pid SIGTERM]
    /\ (forall p, In p (procs w) -> p_ppid p = pid -> p_owned p = true ->
        gone (p_pid p) (procs w1))
    /\ (probe_ok w pid = true -> gone pid (procs w1)).
Proof.
  intros Hr Hk.
  unfold stop_music_kill, subprocess_run_pkill, os_kill. py_go.
  set (kids := map p_pid
                 (filter (fun p => selected (ByParent pid) p && p_owned p)
                         (procs w))).
  assert (Hkids : forall p, In p (procs w) -> p_ppid p = pid ->
                            p_owned p = true -> mem (p_pid p) kids = true).
  { intros p Hp Hpp Ho. apply mem_In. unfold kids. apply in_map.
    apply filter_In. split; [exact Hp |]. simpl. rewrite Hpp, Z.eqb_refl.
    now rewrite Ho. }
  assert (Hfind : probe_ok w pid = true -> mem pid kids = false ->
                  exists p, find (fun p => p_pid p =? pid) (reap kids (procs w))
                            = Some p /\ p_owned p = true).
  { unfold probe_ok. rewrite Hr. simpl. intros Hp Hm.
    rewrite (find_reap pid kids (procs w) Hm).
    destruct (find (fun p => p_pid p =? pid) (procs w)) as [p0 |];
      [| discriminate].
    exists (adopt kids p0). split; [reflexivity |]. now rewrite adopt_owned. }
  destruct (find (fun p => p_pid p =? pid) (reap kids (procs w)))
    as [p1 |] eqn:Ef; [destruct (p_owned p1) eqn:Eo |]; py_go;
    eexists; (split; [reflexivity |]); cbn;
    rewrite <- ?app_assoc; (repeat split; try reflexivity).
  - intros p Hp Hpp Ho. apply reap_gone_keep, reap_gone_dead. auto.
  - intros _. apply reap_gone_dead. apply mem_In. now left.
  - intros p Hp Hpp Ho. apply reap_gone_dead. auto.
  - intro Hp. destruct (mem pid kids) eqn:Hm.
    + now apply reap_gone_dead.
    + destruct (Hfind Hp eq_refl) as [p2 [E2 O2]]. congruence.
  - intros p Hp Hpp Ho. apply reap_gone_dead. auto.
  - intro Hp. destruct (mem pid kids) eqn:Hm.
    + now apply reap_gone_dead.
    + destruct (Hfind Hp eq_refl) as [p2 [E2 O2]]. congruence.
Qed.

(** The inner [try] of Stop spares a process that is neither the recorded
    one nor one of its children. *)
Lemma stop_music_kill_spares (pid : Z) (w : World) (p : Proc) :
  in_pid_range pid = true ->
  NoDup (map p_pid (procs w)) -> In p (procs w) ->
  p_pid p <> pid -> p_ppid p <> pid ->
  exists w1,
    stop_music_kill pid w = Ret tt w1
    /\ pid_file w1 = pid_file w
    /\ host w1 = host w
    /\ stems (procs w) (procs w1)
    /\ survives p (procs w1).
Proof.
  intros Hr Hn Hp Hx Hpp.
  assert (K : mem (p_pid p)
                (map p_pid
                   (filter (fun q => selected (ByParent pid) q && p_owned q)
                           (procs w))) = false).
  { apply not_selected. intros q Hq Hsel E. simpl in Hsel.
    apply Z.eqb_eq in Hsel.
    assert (q = p) by (apply (unique_pid (procs w)); auto). congruence. }
  assert (K1 : mem (p_pid p) [pid] = false).
  { simpl. rewrite orb_false_r. now apply Z.eqb_neq. }
  unfold stop_music_kill, subprocess_run_pkill, os_kill. py_go.
  destruct (has_pkill (host w)); py_go.
  - match goal with
    | |- context [find ?f ?l] => destruct (find f l) as [q |]
    end; [destruct (p_owned q) |]; py_go; simpl (matches _ _); cbv iota;
      eexists; (split; [reflexivity |]); cbn; repeat split;
      auto using stems_reap, stems_refl, survives_reap, survives_refl.
  - simpl (matches _ _). cbv iota. eexists; (split; [reflexivity |]); cbn;
      repeat split; auto using stems_refl, survives_refl.
Qed.

(** C4 as stated fails when the recorded process has a descendant that
    is not its child: on the host where [afplay] is a wrapper, Stop
    signals the wrapper 501 and the driver 500; the real player 502,
    a child of the wrapper whose command line the sweep does not match,
    is signalled by nothing and is left running. *)
Lemma stop_music_leaves_grandchild :
  recorded nested = Some 500
  /\ In (mkProc 501 500 true true) (procs nested)
  /\ In (mkProc 502 501 true false) (procs nested)
  /\ exists w',
       stop_music false nested = Ret tt w'
       /\ calls w' = [CPkillParent 500; CKill 500 SIGTERM; CUnlink;
                      CPkillPattern]
       /\ procs w' = [mkProc 502 1 true false].
Proof.
  split; [reflexivity |].
  split; [simpl; tauto |].
  split; [simpl; tauto |].
  exists (world_of (stop_music false nested)).
  (split; [| split]); vm_compute; reflexivity.
Qed.

(** C4, amended. Children-first termination: when the marker belongs to
    the tool's user and is ASCII text that holds a process identity which
    is neither the tool's own nor its parent's, pkill can be run, and the
    tool's own command line does not match the sweep, [stop_music] first
    has pkill terminate the children of that identity, then sends SIGTERM
    to the recorded process itself (a dead or unsignalable target is
    tolerated), then removes the marker and sweeps the players, reaching
    the tool with none of these calls; afterwards no child that the tool's
    user may signal is left, nor is the recorded process when it was live;
    and, in a process table without duplicate identities, every process
    that is neither the recorded one, nor one of its children, nor matched
    by the sweep (a descendant below the children, for one) is still
    running. *)
Theorem stop_music_children_first
        (quiet : bool) (w : World) (f : File) (pid : Z) :
  pid_file w = Some f -> ours f = true ->
  parse_int (py_strip (content f)) = Some pid -> process_identity pid = true ->
  has_pkill (host w) = true ->
  stop_spares_tool w = true ->
  exists w',
    stop_music quiet w = Ret tt w'
    /\ calls w' = calls w ++ [CPkillParent pid; CKill pid SIGTERM; CUnlink;
                              CPkillPattern]
    /\ tool_killed w w' = false
    /\ pid_file w' = None
    /\ (forall p, In p (procs w) -> p_ppid p = pid -> p_owned p = true ->
        gone (p_pid p) (procs w'))
    /\ (probe_ok w pid = true -> gone pid (procs w'))
    /\ (NoDup (map p_pid (procs w)) ->
        forall p, In p (procs w) -> p_player p = false ->
                  p_pid p <> pid -> p_ppid p <> pid ->
                  survives p (procs w')).
Proof.
  intros Hf Ho Hp Hi Hk Hs.
  pose proof (process_identity_in_range _ Hi) as Hr.
  destruct (stop_music_kill_effect pid w Hr Hk)
    as [w1 [E1 [F1 [H1 [O1 [C1 [G1 G2]]]]]]].
  assert (S : exists w',
             stop_music quiet w = Ret tt w'
             /\ calls w' = calls w ++ [CPkillParent pid; CKill pid SIGTERM;
                                       CUnlink; CPkillPattern]
             /\ pid_file w' = None
             /\ procs w'
                = reap (map p_pid
                          (filter (fun q => selected ByPattern q && p_owned q)
                                  (procs w1)))
                       (procs w1)).
  { unfold stop_music, stop_music_try. py_go.
    unfold pid_file_unlink, subprocess_run_pkill, print. py_go.
    destruct quiet; py_go; eexists; (split; [reflexivity |]); cbn;
      rewrite ?C1, <- ?app_assoc; repeat split; reflexivity. }
  destruct S as [w' [E [C [F P]]]]. exists w'.
  split; [exact E |]. split; [exact C |].
  split; [now apply (stop_music_tool_alive quiet) |].
  split; [exact F |]. rewrite P.
  split; [intros; apply reap_gone_keep; eauto |].
  split; [intros; apply reap_gone_keep; auto |].
  intros Hn p Hin Hl Hx Hpp.
  destruct (stop_music_kill_spares pid w p Hr Hn Hin Hx Hpp)
    as [w2 [E2 [_ [_ [S2 V2]]]]].
  assert (w2 = w1) by congruence. subst w2.
  now apply (sweep_spares p (procs w)).
Qed.

(** The wrapped session: Stop sweeps the wrapper 501 and signals the
    driver 500, and neither is left; the real player 502, below the
    children and unmatched by the sweep, is still running. *)
Lemma stop_music_children_first_witness :
  recorded nested = Some 500
  /\ probe_ok nested 500 = true
  /\ stop_spares_tool nested = true
  /\ exists w',
       stop_music false nested = Ret tt w'
       /\ calls w' = calls nested ++ [CPkillParent 500; CKill 500 SIGTERM;
                                     CUnlink; CPkillPattern]
       /\ tool_killed nested w' = false
       /\ pid_file w' = None
       /\ gone 501 (procs w')
       /\ gone 500 (procs w')
       /\ survives (mkProc 502 501 true false) (procs w').
Proof.
  split; [reflexivity |]. split; [reflexivity |]. split; [reflexivity |].
  destruct (stop_music_children_first false nested (mkFile "500" true) 500)
    as [w' [E [C [K [F [G1 [G2 G3]]]]]]]; try reflexivity.
  exists w'.
  split; [exact E |]. split; [exact C |]. split; [exact K |].
  split; [exact F |].
  split; [apply (G1 (mkProc 501 500 true true)); simpl; tauto |].
  split; [apply G2; reflexivity |].
  apply G3; simpl; try tauto; try discriminate.
  repeat constructor; simpl; intuition discriminate.
Defined.

(** ** The key listener *)







#[local] Instance same_terminal_frame : Frame same_terminal.
Proof.
  split; unfold same_terminal.
  - intro w. now split.
  - intros a b c [H1 H2] [H3 H4]. split; congruence.
Qed.

Lemma keeps_weaken (R R' : World -> World -> Prop) {A} (m : M A) :
  (forall w w', R w w' -> R' w w') -> keeps R m -> keeps R' m.
Proof. intros HR Hm w. apply HR, Hm. Qed.

Lemma stop_music_leaves_terminal (quiet : bool) :
  keeps same_terminal (stop_music quiet).
Proof.
  apply (keeps_weaken same_listener); [| apply stop_music_aside].
  intros w w' [_ H]. exact H.
Qed.

Lemma print_leaves_terminal (line : string) : keeps same_terminal (print line).
Proof. by_world. Qed.

Lemma stop_flag_set_leaves_terminal : keeps same_terminal stop_flag_set.
Proof. by_world. Qed.

Lemma on_char_leaves_terminal (c : Z) : keeps same_terminal (on_char c).
Proof.
  unfold on_char.
  pose proof stop_music_leaves_terminal.
  pose proof print_leaves_terminal.
  pose proof stop_flag_set_leaves_terminal.
  destruct (mem c [27; 3] || (py_lower c =? 113)).
  - repeat first
      [ progress intros
      | solve [auto]
      | apply keeps_ret; solve [typeclasses eauto]
      | apply keeps_if
      | apply keeps_bind; [solve [typeclasses eauto] | |] ].
  - apply keeps_ret. typeclasses eauto.
Qed.

Lemma turn_leaves_terminal (t : Tick) : keeps same_terminal (turn t).
Proof.
  unfold turn, select_ready, stdin_read1.
  pose proof on_char_leaves_terminal.
  destruct t;
    repeat first
      [ progress intros
      | solve [auto]
      | apply keeps_ret; solve [typeclasses eauto]
      | apply keeps_raise; solve [typeclasses eauto]
      | match goal with
        | |- keeps _ (match ?x with _ => _ end) => destruct x
        end
      | apply keeps_bind; [solve [typeclasses eauto] | |]
      | apply keeps_try_except; [solve [typeclasses eauto] | |] ].
Qed.

(** The loop of the listener neither changes the terminal mode nor
    restores it. *)
Lemma watch_leaves_terminal (script : list Tick) :
  keeps same_terminal (watch script).
Proof.
  induction script as [| t rest IH]; intro w; simpl.
  - destruct (stop_flag w); apply frame_refl.
  - destruct (stop_flag w); [apply frame_refl |].
    pose proof (turn_leaves_terminal t w) as Ht.
    destruct (turn t w) as [[] w1 | e w1 | w1]; simpl in *; auto.
    eapply frame_trans; [exact Ht | apply IH].
Qed.

(** C8. Terminal restoration: on a platform with raw terminal control
    and a terminal on standard input, however the listener leaves (the
    loop ended by a trigger or by the flag, an exception in the loop
    swallowed, or one that is no [Exception] raised on), the mode captured
    at entry is the terminal's mode again and has been restored exactly
    once; as long as the listener is still waiting for input the terminal
    is raw and nothing has been restored. *)
Theorem listen_for_escape_restores_terminal
        (script : list Tick) (w : World) (old : Termios) :
  keyboard_available (host w) = true -> term w = Some old ->
  match listen_for_escape script w with
  | Ret _ w' | Exc _ w' =>
      term w' = Some old
      /\ restores (calls w') = restores (calls w) ++ [old]
  | Waiting w' =>
      term w' = Some (mkTermios true (t_flags old))
      /\ restores (calls w') = restores (calls w)
  end.
Proof.
  intros Hk Ht.
  unfold listen_for_escape, tcgetattr, setraw. rewrite Hk. py_go.
  set (raw := set_term (Some (mkTermios true (t_flags old))) (log CSetraw w)).
  pose proof (watch_leaves_terminal script raw) as [T R].
  assert (R0 : restores (calls raw) = restores (calls w)).
  { unfold raw. cbn. now rewrite restores_app, app_nil_r. }
  assert (Fin : forall w2, term w2 = term raw ->
                  restores (calls w2) = restores (calls raw) ->
                  exists w3, tcsetattr old w2 = Ret tt w3
                             /\ term w3 = Some old
                             /\ restores (calls w3) = restores (calls w) ++ [old]).
  { intros w2 T2 R2. unfold tcsetattr. py_go. unfold raw. cbn.
    eexists. split; [reflexivity |]. cbn.
    split; [reflexivity |]. rewrite restores_app, R2, R0. reflexivity. }
  destruct (watch script raw) as [[] w2 | e w2 | w2]; simpl in T, R.
  - destruct (Fin w2 T R) as [w3 [E3 [T3 R3]]]. py_go. auto.
  - destruct (Fin w2 T R) as [w3 [E3 [T3 R3]]].
    destruct (matches [Exception] e); py_go; auto.
  - py_run. split; [exact T | rewrite R; exact R0].
Qed.

(** The listener of the playing sample host, left by the ESC key, by the
    flag found set, by an exception swallowed in the loop, and by an
    interrupt that is raised on: each time the mode captured at entry is
    back, restored once. *)
Lemma listen_for_escape_restores_terminal_witness :
  keyboard_available (host playing) = true
  /\ term playing = Some (mkTermios false 5)
  /\ (exists w', listen_for_escape [TimedOut; Key 120; Key 27] playing = Ret tt w'
                 /\ term w' = Some (mkTermios false 5)
                 /\ restores (calls w') = [mkTermios false 5])
  /\ (exists w', listen_for_escape [] (set_stop_flag true playing) = Ret tt w'
                 /\ term w' = Some (mkTermios false 5)
                 /\ restores (calls w') = [mkTermios false 5])
  /\ (exists w', listen_for_escape
                   [SelectRaises (mkExn ValueError "closed file")] playing
                 = Ret tt w'
                 /\ term w' = Some (mkTermios false 5)
                 /\ restores (calls w') = [mkTermios false 5])
  /\ (exists e w', listen_for_escape
                     [ReadRaises (mkExn KeyboardInterrupt "")] playing
                   = Exc e w'
                   /\ term w' = Some (mkTermios false 5)
                   /\ restores (calls w') = [mkTermios false 5]).
Proof.
  split; [reflexivity |]. split; [reflexivity |].
  pose proof (listen_for_escape_restores_terminal
                [TimedOut; Key 120; Key 27] playing (mkTermios false 5)
                eq_refl eq_refl) as H1.
  pose proof (listen_for_escape_restores_terminal
                [] (set_stop_flag true playing) (mkTermios false 5)
                eq_refl eq_refl) as H2.
  pose proof (listen_for_escape_restores_terminal
                [SelectRaises (mkExn ValueError "closed file")] playing
                (mkTermios false 5) eq_refl eq_refl) as H3.
  pose proof (listen_for_escape_restores_terminal
                [ReadRaises (mkExn KeyboardInterrupt "")] playing
                (mkTermios false 5) eq_refl eq_refl) as H4.
  split; [| split; [| split]].
  - destruct (listen_for_escape [TimedOut; Key 120; Key 27] playing)
      as [[] w' | e w' | w'] eqn:E; [| discriminate E | discriminate E].
    exists w'. destruct H1 as [T R]. auto.
  - destruct (listen_for_escape [] (set_stop_flag true playing))
      as [[] w' | e w' | w'] eqn:E; [| discriminate E | discriminate E].
    exists w'. destruct H2 as [T R]. auto.
  - destruct (listen_for_escape
                [SelectRaises (mkExn ValueError "closed file")] playing)
      as [[] w' | e w' | w'] eqn:E; [| discriminate E | discriminate E].
    exists w'. destruct H3 as [T R]. auto.
  - destruct (listen_for_escape
                [ReadRaises (mkExn KeyboardInterrupt "")] playing)
      as [[] w' | e w' | w'] eqn:E; [discriminate E | | discriminate E].
    exists e, w'. destruct H4 as [T R]. auto.
Defined.

(** * Beyond the controller *)

(** ** Choosing the music *)

Lemma ends_with_spec (suffix s : string) :
  ends_with suffix s = true <-> exists prefix, s = (prefix ++ suffix)%string.
Proof.
  split.
  - induction s as [| a s IH]; cbn [ends_with]; intro H.
    + rewrite orb_false_r in H. apply String.eqb_eq in H.
      exists "". now subst suffix.
    + apply orb_true_iff in H. destruct H as [H | H].
      * apply String.eqb_eq in H. exists "". now subst suffix.
      * destruct (IH H) as [prefix E]. exists (String a prefix).
        simpl. now rewrite E.
  - intros [prefix E]. revert s E.
    induction prefix as [| a prefix IH]; intros s E; simpl in E; subst s.
    + destruct suffix; cbn [ends_with]; now rewrite String.eqb_refl.
    + cbn [ends_with]. rewrite (IH (prefix ++ suffix)%string eq_refl).
      apply orb_true_r.
Qed.

Lemma glob_audio (entries : list string) (x : string) :
  In x (flat_map (glob entries) patterns) <-> In x entries /\ audio_name x.
Proof.
  rewrite in_flat_map. unfold glob, audio_name, patterns, audio_suffixes.
  split.
  - intros [pat [Hp Hx]]. apply filter_In in Hx. destruct Hx as [Hin Hm].
    split; [exact Hin |].
    simpl in Hp.
    destruct Hp as [<- | [<- | [<- | [<- | [<- | [<- | []]]]]]];
      simpl in Hm; apply ends_with_spec in Hm; destruct Hm as [prefix E];
      exists prefix; eexists; (split; [| exact E]); simpl; auto 10.
  - intros [Hin [prefix [suffix [Hs E]]]].
    assert (Hm : ends_with suffix x = true)
      by (apply ends_with_spec; now exists prefix).
    simpl in Hs.
    destruct Hs as [<- | [<- | [<- | [<- | [<- | [<- | []]]]]]].
    + exists "*.mp3". split; [simpl; auto 10 | now apply filter_In].
    + exists "*.m4a". split; [simpl; auto 10 | now apply filter_In].
    + exists "*.wav". split; [simpl; auto 10 | now apply filter_In].
    + exists "*.aac". split; [simpl; auto 10 | now apply filter_In].
    + exists "*.flac". split; [simpl; auto 10 | now apply filter_In].
    + exists "*.ogg". split; [simpl; auto 10 | now apply filter_In].
Qed.

Lemma random_choice_In (draw : nat) (seq : list string) :
  seq <> [] -> In (random_choice draw seq) seq.
Proof.
  intro H. unfold random_choice. apply nth_In.
  apply Nat.mod_upper_bound. destruct seq; [contradiction | discriminate].
Qed.

(** X1. [get_random_music_file] returns a file of the music directory
    whose name ends in one of the six audio suffixes, whatever the draw;
    it raises [FileNotFoundError] exactly when the directory is missing or
    holds no such file; it changes nothing. *)
Theorem get_random_music_file_picks_audio (w : World) :
  match get_random_music_file w with
  | Ret p w' =>
      w' = w
      /\ parent p = music_dir (host w)
      /\ audio_name (name p)
      /\ exists entries,
           music_entries (host w) = Some entries /\ In (name p) entries
  | Exc e w' =>
      w' = w
      /\ cls e = FileNotFoundError
      /\ (music_entries (host w) = None
          \/ exists entries,
               music_entries (host w) = Some entries
               /\ forall x, In x entries -> ~ audio_name x)
  | Waiting _ => False
  end.
Proof.
  unfold get_random_music_file.
  destruct (music_entries (host w)) as [entries |]; [| auto].
  destruct (flat_map (glob entries) patterns) as [| x l] eqn:E.
  - repeat split. right. exists entries. split; [reflexivity |].
    intros x Hx Ha.
    assert (H : In x (flat_map (glob entries) patterns))
      by now apply glob_audio.
    now rewrite E in H.
  - assert (H : In (random_choice (rand (host w)) (x :: l)) (x :: l))
      by now apply random_choice_In.
    rewrite <- E in H at 2. apply glob_audio in H. destruct H as [Hin Ha].
    cbn [parent name]. repeat split; [exact Ha |].
    exists entries. now split.
Qed.

(** ** The liveness check in full *)

(** X2. The liveness check answers yes exactly when the session is live,
    and then only the probe shows in the world; when it answers no, no
    marker is left; it raises only [OverflowError] (an identity that is no
    [pid_t]) or [PermissionError] (a marker it may not unlink), and then
    the marker stays. It never touches the process table. *)
Theorem is_music_playing_verdict (w : World) :
  match is_music_playing w with
  | Ret true w' =>
      session_live w = true
      /\ exists pid, recorded w = Some pid /\ w' = log (CKill pid SIG0) w
  | Ret false w' =>
      session_live w = false
      /\ pid_file w' = None
      /\ procs w' = procs w
  | Exc e w' =>
      session_live w = false
      /\ pid_file w' = pid_file w
      /\ procs w' = procs w
      /\ (cls e = OverflowError \/ cls e = PermissionError)
  | Waiting _ => False
  end.
Proof.
  unfold is_music_playing, os_kill, pid_file_unlink, session_live, recorded,
    probe_ok.
  destruct (pid_file w) as [f |] eqn:Hf; py_go; [| auto].
  destruct (parse_int (py_strip (content f))) as [pid |] eqn:Hp; py_go.
  - destruct (in_pid_range pid) eqn:Hr; py_go.
    + destruct (find (fun p => p_pid p =? pid) (procs w)) as [p |] eqn:Hfind;
        py_go; [destruct (p_owned p) eqn:Ho |]; py_go.
      * split; [reflexivity |]. exists pid. split; [reflexivity |].
        destruct w; reflexivity.
      * destruct (ours f); py_go; cbn; auto 6.
      * destruct (ours f); py_go; cbn; auto 6.
    + cbn. repeat split; auto.
  - destruct (ours f); py_go; cbn; auto 6.
Qed.

(** ** The marker's text *)

Lemma digits_from_numeral (d : Decimal.uint) (acc : Z) (n : nat) :
  digits_from true acc n (numeral d)
  = Some (uint_value acc d, (n + Decimal.nb_digits d)%nat).
Proof.
  revert acc n. unfold numeral.
  induction d; intros acc n;
    cbn [NilEmpty.string_of_uint list_ascii_of_string digits_from uint_value
         Decimal.nb_digits];
    [now rewrite Nat.add_0_r | ..];
    (replace (n + S (Decimal.nb_digits d))%nat
       with (S n + Decimal.nb_digits d)%nat by lia);
    rewrite <- IHd; reflexivity.
Qed.

Lemma digits_from_numeral_start (d : Decimal.uint) :
  d <> Decimal.Nil ->
  digits_from false 0 0 (numeral d)
  = Some (uint_value 0 d, Decimal.nb_digits d).
Proof.
  intro H. destruct d; [contradiction | ..];
    unfold numeral; cbn [NilEmpty.string_of_uint list_ascii_of_string];
    cbn [digits_from Decimal.nb_digits uint_value];
    match goal with
    | |- context [list_ascii_of_string (NilEmpty.string_of_uint ?d)] =>
        change (list_ascii_of_string (NilEmpty.string_of_uint d))
          with (numeral d)
    end;
    simpl is_digit; cbv iota; rewrite digits_from_numeral; reflexivity.
Qed.

Lemma usize_nb_digits (d : Decimal.uint) :
  Z.of_N (DecimalPos.Unsigned.usize d) = Z.of_nat (Decimal.nb_digits d).
Proof.
  induction d; cbn [DecimalPos.Unsigned.usize Decimal.nb_digits];
    [reflexivity | ..];
    rewrite N2Z.inj_succ, Nat2Z.inj_succ; now rewrite IHd.
Qed.

Lemma of_uint_digit (d : Decimal.uint) (acc : positive) :
  Z.of_N (N.pos (Pos.of_uint_acc d acc))
  = Z.pos acc * 10 ^ Z.of_nat (Decimal.nb_digits d) + Z.of_N (Pos.of_uint d).
Proof.
  rewrite DecimalPos.Unsigned.of_uint_acc_rev,
    <- DecimalPos.Unsigned.of_uint_alt.
  rewrite N2Z.inj_add, N2Z.inj_mul, N2Z.inj_pow, usize_nb_digits.
  simpl Z.of_N at 2 3. lia.
Qed.

(** Reading a numeral from the left gives the number it denotes. *)
Lemma uint_value_spec (d : Decimal.uint) (acc : Z) :
  uint_value acc d
  = acc * 10 ^ Z.of_nat (Decimal.nb_digits d) + Z.of_N (Pos.of_uint d).
Proof.
  revert acc. induction d; intro acc;
    cbn [uint_value Decimal.nb_digits Pos.of_uint];
    [simpl; lia | ..];
    rewrite IHd, ?of_uint_digit, Nat2Z.inj_succ, Z.pow_succ_r by lia; lia.
Qed.

Lemma to_uint_normal (p : positive) :
  Decimal.unorm (Pos.to_uint p) = Pos.to_uint p.
Proof.
  rewrite <- (DecimalPos.Unsigned.to_of (Pos.to_uint p)),
    DecimalPos.Unsigned.of_to.
  reflexivity.
Qed.

(** The numeral of a positive number has no leading zero: with [k] digits
    it denotes at least [10 ^ (k - 1)]. *)
Lemma to_uint_size (p : positive) :
  10 ^ (Z.of_nat (Decimal.nb_digits (Pos.to_uint p)) - 1) <= Z.pos p.
Proof.
  pose proof (to_uint_normal p) as Hn.
  pose proof (DecimalPos.Unsigned.to_uint_nonzero p) as Hz.
  pose proof (DecimalPos.Unsigned.to_uint_nonnil p) as Hnil.
  pose proof (DecimalPos.Unsigned.of_to p) as Hv.
  destruct (Pos.to_uint p) as [| u | u | u | u | u | u | u | u | u | u] eqn:E;
    [contradiction | | ..].
  1: { exfalso. unfold Decimal.unorm in Hn. cbn [Decimal.nzhead] in Hn.
       pose proof (DecimalFacts.nb_digits_nzhead u) as Hl.
       destruct (Decimal.nzhead u) eqn:Eu;
         try (rewrite Hn in Hl; simpl in Hl; lia).
       now apply Hz. }
  all: cbn [Pos.of_uint] in Hv; apply (f_equal Z.of_N) in Hv;
    rewrite of_uint_digit in Hv; cbn [Decimal.nb_digits];
    rewrite Nat2Z.inj_succ;
    replace (Z.succ (Z.of_nat (Decimal.nb_digits u)) - 1)
      with (Z.of_nat (Decimal.nb_digits u)) by lia;
    simpl Z.of_N in Hv at 2;
    pose proof (N2Z.is_nonneg (Pos.of_uint u));
    assert (0 < 10 ^ Z.of_nat (Decimal.nb_digits u))
      by (apply Z.pow_pos_nonneg; lia);
    nia.
Qed.

Lemma lstrip_solid (l : list ascii) : solid l -> lstrip l = l.
Proof.
  intro H. destruct H as [| a l Ha Hl]; simpl; [reflexivity | now rewrite Ha].
Qed.

(** [strip] leaves text without white space as it is. *)
Lemma py_strip_solid (s : string) :
  solid (list_ascii_of_string s) -> py_strip s = s.
Proof.
  intro H. unfold py_strip. rewrite (lstrip_solid _ H).
  rewrite lstrip_solid by now apply Forall_rev.
  now rewrite rev_involutive, string_of_list_ascii_of_string.
Qed.

Lemma numeral_solid (d : Decimal.uint) : solid (numeral d).
Proof.
  unfold numeral.
  induction d; cbn [NilEmpty.string_of_uint list_ascii_of_string];
    constructor; (reflexivity || assumption).
Qed.

Lemma parse_int_numeral (neg : bool) (p : positive) :
  Z.pos p < 10 ^ Z.of_nat max_str_digits ->
  parse_int ((if neg then "-" else "")
             ++ NilEmpty.string_of_uint (Pos.to_uint p))
  = Some (if neg then Z.neg p else Z.pos p).
Proof.
  intro Hb.
  pose proof (DecimalPos.Unsigned.to_uint_nonnil p) as Hnil.
  pose proof (to_uint_size p) as Hs.
  pose proof (DecimalPos.Unsigned.of_to p) as Hv.
  set (d := Pos.to_uint p) in *.
  assert (Hd : (Decimal.nb_digits d <= max_str_digits)%nat).
  { apply Nat2Z.inj_le.
    assert (Z.of_nat (Decimal.nb_digits d) - 1 < Z.of_nat max_str_digits);
      [| lia].
    apply (Z.pow_lt_mono_r_iff 10);
      [lia | apply Nat2Z.is_nonneg | eapply Z.le_lt_trans; eassumption]. }
  assert (Hval : uint_value 0 d = Z.pos p).
  { rewrite uint_value_spec, Hv. reflexivity. }
  unfold parse_int. rewrite py_strip_solid.
  2: { destruct neg; [constructor; [reflexivity | apply numeral_solid]
                     | apply numeral_solid]. }
  set (text := ((if neg then "-" else "") ++ NilEmpty.string_of_uint d)%string).
  assert (E : match list_ascii_of_string text with
              | a :: rest =>
                  if Ascii.eqb a "-" then (true, rest)
                  else if Ascii.eqb a "+" then (false, rest)
                  else (false, list_ascii_of_string text)
              | [] => (false, list_ascii_of_string text)
              end = (neg, numeral d)).
  { unfold text. destruct neg; [reflexivity |]. unfold numeral.
    destruct d; [contradiction | ..]; reflexivity. }
  rewrite E. rewrite (digits_from_numeral_start d Hnil), Hval.
  replace (max_str_digits <? Decimal.nb_digits d)%nat with false
    by (symmetry; apply Nat.ltb_ge; exact Hd).
  now destruct neg.
Qed.

(** [int(str(n).strip())] is [n], for an integer that [str] can print
    (at most 4300 digits). *)
Lemma int_of_str (n : Z) :
  Z.abs n < 10 ^ Z.of_nat max_str_digits -> parse_int (py_strip (py_str n)) = Some n.
Proof.
  intro H. unfold py_str.
  destruct n as [| p | p]; cbn [Z.to_int NilZero.string_of_int].
  - vm_compute. reflexivity.
  - pose proof (DecimalPos.Unsigned.to_uint_nonnil p) as Hnil.
    replace (NilZero.string_of_uint (Pos.to_uint p))
      with (NilEmpty.string_of_uint (Pos.to_uint p))
      by (unfold NilZero.string_of_uint; now destruct (Pos.to_uint p)).
    rewrite py_strip_solid by apply numeral_solid.
    apply (parse_int_numeral false p). exact H.
  - pose proof (DecimalPos.Unsigned.to_uint_nonnil p) as Hnil.
    replace (NilZero.string_of_uint (Pos.to_uint p))
      with (NilEmpty.string_of_uint (Pos.to_uint p))
      by (unfold NilZero.string_of_uint; now destruct (Pos.to_uint p)).
    rewrite py_strip_solid
      by (constructor; [reflexivity | apply numeral_solid]).
    apply (parse_int_numeral true p). exact H.
Qed.

Lemma numeral_ascii (d : Decimal.uint) :
  ascii_text (NilEmpty.string_of_uint d) = true.
Proof.
  unfold ascii_text.
  induction d; cbn [NilEmpty.string_of_uint list_ascii_of_string forallb];
    [reflexivity | ..]; rewrite IHd; reflexivity.
Qed.

(** [str(n)] is ASCII text. *)
Lemma py_str_ascii (n : Z) : ascii_text (py_str n) = true.
Proof.
  unfold py_str.
  destruct n as [| p | p]; cbn [Z.to_int NilZero.string_of_int];
    [reflexivity | |];
    pose proof (DecimalPos.Unsigned.to_uint_nonnil p) as Hnil;
    replace (NilZero.string_of_uint (Pos.to_uint p))
      with (NilEmpty.string_of_uint (Pos.to_uint p))
      by (unfold NilZero.string_of_uint; now destruct (Pos.to_uint p)).
  - apply numeral_ascii.
  - unfold ascii_text. cbn [list_ascii_of_string forallb].
    pose proof (numeral_ascii (Pos.to_uint p)) as H. unfold ascii_text in H.
    now rewrite H.
Qed.

(** X3. The marker round trip: the text Start writes for a process
    identity is read back by the liveness check and by Stop as the same
    identity. Writing fails only on a marker of another user, which is then
    left as it is. *)
Theorem marker_round_trip (pid : Z) (w : World) :
  Z.abs pid < 10 ^ Z.of_nat max_str_digits ->
  match write_pid_file (py_str pid) w with
  | Ret _ w' => recorded w' = Some pid /\ procs w' = procs w
  | Exc e w' =>
      cls e = PermissionError
      /\ pid_file w' = pid_file w
      /\ exists f, pid_file w = Some f /\ ours f = false
  | Waiting _ => False
  end.
Proof.
  intro H. unfold write_pid_file, recorded. cbv zeta. cbn [pid_file log].
  destruct (pid_file w) as [f |] eqn:Hf; [destruct (ours f) eqn:Ho |];
    cbn [pid_file set_pid_file procs log content].
  - split; [now apply int_of_str | reflexivity].
  - split; [reflexivity |]. split; [exact Hf |]. now exists f.
  - split; [now apply int_of_str | reflexivity].
Qed.

(** The identity 500 written on the idle sample host and read back. *)
Lemma marker_round_trip_witness :
  Z.abs 500 < 10 ^ Z.of_nat max_str_digits
  /\ match write_pid_file (py_str 500) idle with
     | Ret _ w' => recorded w' = Some 500 /\ procs w' = procs idle
     | Exc e w' =>
         cls e = PermissionError
         /\ pid_file w' = pid_file idle
         /\ exists f, pid_file idle = Some f /\ ours f = false
     | Waiting _ => False
     end.
Proof.
  assert (H : Z.abs 500 < 10 ^ Z.of_nat max_str_digits).
  { apply Z.lt_le_trans with (10 ^ 3); [reflexivity |].
    apply Z.pow_le_mono_r; [lia |]. unfold max_str_digits. lia. }
  split; [exact H | apply (marker_round_trip 500 idle H)].
Defined.

(** ** Start, case by case *)

(** The liveness check leaves the processes, the output and the host
    alone, however it ends. *)
Lemma is_music_playing_probes (w : World) :
  same_processes w (world_of (is_music_playing w)).
Proof.
  unfold same_processes, is_music_playing, os_kill, pid_file_unlink.
  destruct (pid_file w) as [f |] eqn:Hf; py_go; [| auto 6].
  destruct (parse_int (py_strip (content f))) as [pid |] eqn:Hp; py_go.
  - destruct (in_pid_range pid) eqn:Hr; py_go.
    + destruct (find (fun p => p_pid p =? pid) (procs w)) as [p |] eqn:Hfind;
        py_go; [destruct (p_owned p) eqn:Ho |]; py_go.
      * cbn. rewrite spawns_app, app_nil_r. auto 6.
      * destruct (ours f); py_go; cbn; rewrite !spawns_app, !app_nil_r; auto 6.
      * destruct (ours f); py_go; cbn; rewrite !spawns_app, !app_nil_r; auto 6.
    + cbn. rewrite spawns_app, app_nil_r. auto 6.
  - destruct (ours f); py_go; cbn; rewrite !spawns_app, !app_nil_r; auto 6.
Qed.

(** When the check answers no, no marker is left. *)
Lemma is_music_playing_no (w w1 : World) :
  is_music_playing w = Ret false w1 ->
  pid_file w1 = None /\ same_processes w w1.
Proof.
  intro E. split.
  - revert E. unfold is_music_playing, os_kill, pid_file_unlink.
    destruct (pid_file w) as [f |] eqn:Hf; py_go;
      [| intro E; injection E as <-; exact Hf].
    destruct (parse_int (py_strip (content f))) as [pid |] eqn:Hp; py_go.
    + destruct (in_pid_range pid) eqn:Hr; py_go; [| discriminate].
      destruct (find (fun p => p_pid p =? pid) (procs w)) as [p |] eqn:Hfind;
        py_go; [destruct (p_owned p) eqn:Ho |]; py_go; try discriminate;
        destruct (ours f); py_go; try discriminate;
        intro E; injection E as <-; reflexivity.
    + destruct (ours f); py_go; try discriminate;
        intro E; injection E as <-; reflexivity.
  - pose proof (is_music_playing_probes w) as H. now rewrite E in H.
Qed.

(** The choice of the music depends on the host alone and changes
    nothing. *)
Lemma get_random_music_file_host (w w1 : World) (music : Path) :
  host w1 = host w ->
  get_random_music_file w = Ret music w ->
  get_random_music_file w1 = Ret music w1.
Proof.
  unfold get_random_music_file. intros ->.
  destruct (music_entries (host w)) as [entries |]; [| discriminate].
  destruct (flat_map (glob entries) patterns); [discriminate |].
  intro E. injection E as <-. reflexivity.
Qed.

Lemma get_random_music_file_host_exc (w w1 : World) (e : exn) :
  host w1 = host w ->
  get_random_music_file w = Exc e w ->
  get_random_music_file w1 = Exc e w1.
Proof.
  unfold get_random_music_file. intros ->.
  destruct (music_entries (host w)) as [entries |].
  - destruct (flat_map (glob entries) patterns); [| discriminate].
    intro E. injection E as <-. reflexivity.
  - intro E. injection E as <-. reflexivity.
Qed.

Lemma get_random_music_file_same (w : World) :
  world_of (get_random_music_file w) = w.
Proof.
  unfold get_random_music_file.
  destruct (music_entries (host w)) as [entries |]; [| reflexivity].
  now destruct (flat_map (glob entries) patterns).
Qed.

(** Start on a host where the check answers no, a music file can be chosen
    and bash can be launched. *)
Lemma start_music_fresh (quiet : bool) (w w1 : World) (music : Path) :
  is_music_playing w = Ret false w1 ->
  get_random_music_file w = Ret music w ->
  has_bash (host w) = true ->
  exists w',
    start_music quiet w = Ret tt w'
    /\ host w' = host w
    /\ pid_file w' = Some (mkFile (py_str (next_pid w)) true)
    /\ procs w' = procs w ++ [mkProc (next_pid w) (tool_pid (host w)) true true]
    /\ next_pid w' = next_pid w + 1
    /\ spawns (calls w') = spawns (calls w) ++ [path_str music]
    /\ stdout w' = stdout w
         ++ (if quiet then []
             else [("🎵 Selected: " ++ name music)%string;
                   ("🎵 Started elevator music (PID: "
                    ++ py_str (next_pid w) ++ ")")%string]).
Proof.
  intros E Hm Hb.
  destruct (is_music_playing_no w w1 E) as [Hf [Hh [Hp [Hn [Ho Hs]]]]].
  pose proof (get_random_music_file_host w w1 music Hh Hm) as Hm1.
  rewrite <- Hh in Hb.
  unfold start_music, start_music_try. py_go.
  unfold popen_player, write_pid_file, print.
  destruct quiet; py_go; eexists; (split; [reflexivity |]); cbn;
    rewrite ?spawns_app, ?Hh, ?Hp, ?Hn, ?Ho, ?Hs; cbn;
    rewrite ?app_nil_r, <- ?app_assoc; repeat split; reflexivity.
Qed.

(** X4. Start on a host where the liveness check answers no, a music file
    can be chosen and bash can be launched: one process is started, a child
    of the tool with the next identity; the marker holds that identity in
    decimal; the two progress lines are printed unless quiet. The processes
    that were running are left as they are. *)
Theorem start_music_starts (quiet : bool) (w w1 : World) (music : Path) :
  is_music_playing w = Ret false w1 ->
  get_random_music_file w = Ret music w ->
  has_bash (host w) = true ->
  exists w',
    start_music quiet w = Ret tt w'
    /\ pid_file w' = Some (mkFile (py_str (next_pid w)) true)
    /\ procs w' = procs w ++ [mkProc (next_pid w) (tool_pid (host w)) true true]
    /\ next_pid w' = next_pid w + 1
    /\ spawns (calls w') = spawns (calls w) ++ [path_str music]
    /\ stdout w' = stdout w
         ++ (if quiet then []
             else [("🎵 Selected: " ++ name music)%string;
                   ("🎵 Started elevator music (PID: "
                    ++ py_str (next_pid w) ++ ")")%string]).
Proof.
  intros E Hm Hb.
  destruct (start_music_fresh quiet w w1 music E Hm Hb) as [w' [Es [_ H]]].
  now exists w'.
Qed.

(** Start on the idle sample host: the draw picks [bossa.ogg], and the
    driver gets the identity 500. *)
Lemma start_music_starts_witness :
  is_music_playing idle = Ret false idle
  /\ get_random_music_file idle
     = Ret (mkPath "/opt/muzak/muzakfiles" "bossa.ogg") idle
  /\ has_bash (host idle) = true
  /\ exists w',
       start_music false idle = Ret tt w'
       /\ pid_file w' = Some (mkFile (py_str 500) true)
       /\ procs w' = [mkProc 500 4242 true true]
       /\ next_pid w' = 501
       /\ spawns (calls w') = ["/opt/muzak/muzakfiles/bossa.ogg"]
       /\ stdout w' = ["🎵 Selected: bossa.ogg";
                       ("🎵 Started elevator music (PID: " ++ py_str 500 ++ ")")%string].
Proof.
  split; [reflexivity |]. split; [reflexivity |]. split; [reflexivity |].
  apply (start_music_starts false idle idle
           (mkPath "/opt/muzak/muzakfiles" "bossa.ogg"));
    reflexivity.
Defined.

(** X5. Start that cannot start: when the check answers no but no music
    file can be chosen, or bash cannot be launched, Start returns normally
    with no marker written, no process started and no identity used; unless
    quiet it prints the line [Error starting music: ...] (after the line
    naming the selection, when it was bash that failed). *)
Theorem start_music_fails_cleanly (quiet : bool) (w w1 : World) :
  is_music_playing w = Ret false w1 ->
  (exists e, get_random_music_file w = Exc e w) \/ has_bash (host w) = false ->
  exists w',
    start_music quiet w = Ret tt w'
    /\ pid_file w' = None
    /\ procs w' = procs w
    /\ next_pid w' = next_pid w
    /\ stdout w' = stdout w
         ++ (if quiet then []
             else match get_random_music_file w with
                  | Ret music _ =>
                      [("🎵 Selected: " ++ name music)%string;
                       ("Error starting music: " ++ msg (enoent "bash"))%string]
                  | Exc e _ => [("Error starting music: " ++ msg e)%string]
                  | Waiting _ => []
                  end).
Proof.
  intros E H.
  destruct (is_music_playing_no w w1 E) as [Hf [Hh [Hp [Hn [Ho Hs]]]]].
  pose proof (get_random_music_file_same w) as Hsame.
  pose proof (tame_get_random_music_file w) as Ht.
  destruct (get_random_music_file w) as [music w0 | e w0 | w0] eqn:Hm;
    simpl in Hsame; subst w0; [| | contradiction].
  - destruct H as [[e He] | Hb]; [discriminate |].
    pose proof (get_random_music_file_host w w1 music Hh Hm) as Hm1.
    rewrite <- Hh in Hb.
    unfold start_music, start_music_try. py_go.
    unfold popen_player, print.
    destruct quiet; py_go; eexists; (split; [reflexivity |]); cbn;
      rewrite ?Hp, ?Hn, ?Ho; cbn;
      rewrite ?app_nil_r, <- ?app_assoc; repeat split; auto.
  - pose proof (get_random_music_file_host_exc w w1 e Hh Hm) as Hm1.
    unfold start_music, start_music_try. py_go.
    rewrite (matches_Exception e Ht). unfold print.
    destruct quiet; py_go; eexists; (split; [reflexivity |]); cbn;
      rewrite ?Hp, ?Hn, ?Ho; cbn;
      rewrite ?app_nil_r, <- ?app_assoc; repeat split; auto.
Qed.

(** Start on the host without a music directory. *)
Lemma start_music_fails_cleanly_witness :
  is_music_playing unstocked = Ret false unstocked
  /\ (exists e, get_random_music_file unstocked = Exc e unstocked)
  /\ exists w',
       start_music false unstocked = Ret tt w'
       /\ pid_file w' = None
       /\ procs w' = []
       /\ next_pid w' = 500
       /\ stdout w'
          = ["Error starting music: Music directory /opt/muzak/muzakfiles not found"].
Proof.
  assert (H : exists e, get_random_music_file unstocked = Exc e unstocked)
    by (eexists; reflexivity).
  split; [reflexivity |]. split; [exact H |].
  apply (start_music_fails_cleanly false unstocked unstocked eq_refl
           (or_introl H)).
Defined.

Lemma find_fresh (pid ppid : Z) (ps : list Proc) :
  gone pid ps ->
  find (fun p => p_pid p =? pid) (ps ++ [mkProc pid ppid true true])
  = Some (mkProc pid ppid true true).
Proof.
  intro H. induction ps as [| q ps IH]; simpl.
  - now rewrite Z.eqb_refl.
  - destruct (Z.eqb_spec (p_pid q) pid) as [E | N].
    + exfalso. apply (H q); [now left | exact E].
    + apply IH. intros p Hp. apply H. now right.
Qed.

(** After a Start that started, the marker holds the identity of the new
    process, which the probe finds. *)
Lemma start_music_live (quiet : bool) (w w1 : World) (music : Path) :
  is_music_playing w = Ret false w1 ->
  get_random_music_file w = Ret music w ->
  has_bash (host w) = true ->
  process_identity (next_pid w) = true ->
  gone (next_pid w) (procs w) ->
  exists w' f,
    start_music quiet w = Ret tt w'
    /\ host w' = host w
    /\ next_pid w' = next_pid w + 1
    /\ pid_file w' = Some f /\ ours f = true
    /\ parse_int (py_strip (content f)) = Some (next_pid w)
    /\ probe_ok w' (next_pid w) = true.
Proof.
  intros E Hm Hb Hi Hg.
  destruct (start_music_fresh quiet w w1 music E Hm Hb)
    as [w' [Es [Hh [Hf [Hp [Hn _]]]]]].
  exists w', (mkFile (py_str (next_pid w)) true).
  assert (Hr : parse_int (py_strip (py_str (next_pid w))) = Some (next_pid w)).
  { apply int_of_str. unfold process_identity in Hi.
    apply andb_true_iff in Hi. destruct Hi as [H1 H2].
    apply Z.ltb_lt in H1. apply Z.leb_le in H2.
    apply Z.lt_le_trans with (10 ^ 10); [rewrite Z.abs_eq; lia |].
    apply Z.pow_le_mono_r; [lia |]. unfold max_str_digits. lia. }
  repeat split; auto.
  unfold probe_ok. rewrite (process_identity_in_range _ Hi), Hp.
  now rewrite (find_fresh _ _ _ Hg).
Qed.

(** X6. Start, then the check, then Start again: after a Start that
    started a process (whose identity, handed out by the host, is a process
    identity no running process has), the marker records that identity and
    the session is live; a second Start, in either mode, then leaves marker
    and processes as they are and uses no further identity. *)
Theorem start_music_then_live
        (quiet again : bool) (w w1 : World) (music : Path) :
  is_music_playing w = Ret false w1 ->
  get_random_music_file w = Ret music w ->
  has_bash (host w) = true ->
  process_identity (next_pid w) = true ->
  gone (next_pid w) (procs w) ->
  exists w' w'',
    start_music quiet w = Ret tt w'
    /\ recorded w' = Some (next_pid w)
    /\ session_live w' = true
    /\ start_music again w' = Ret tt w''
    /\ pid_file w'' = pid_file w'
    /\ procs w'' = procs w'
    /\ next_pid w'' = next_pid w'.
Proof.
  intros E Hm Hb Hi Hg.
  destruct (start_music_live quiet w w1 music E Hm Hb Hi Hg)
    as [w' [f [Es [Hh [Hn [Hf [Ho [Hr Hp]]]]]]]].
  assert (Hrec : recorded w' = Some (next_pid w))
    by (unfold recorded; now rewrite Hf).
  assert (Hl : session_live w' = true)
    by (unfold session_live; now rewrite Hrec).
  assert (Again : exists w'', start_music again w' = Ret tt w''
                              /\ pid_file w'' = pid_file w'
                              /\ procs w'' = procs w'
                              /\ next_pid w'' = next_pid w').
  { unfold start_music, start_music_try, try_except, bind.
    rewrite (is_music_playing_live w' (next_pid w) Hrec Hp).
    destruct again; simpl; eexists; repeat split; reflexivity. }
  destruct Again as [w'' [Ea [A1 [A2 A3]]]].
  exists w', w''. auto 8.
Qed.

(** Start twice on the idle sample host. *)
Lemma start_music_then_live_witness :
  is_music_playing idle = Ret false idle
  /\ process_identity (next_pid idle) = true
  /\ gone (next_pid idle) (procs idle)
  /\ exists w' w'',
       start_music false idle = Ret tt w'
       /\ recorded w' = Some 500
       /\ session_live w' = true
       /\ start_music true w' = Ret tt w''
       /\ pid_file w'' = pid_file w'
       /\ procs w'' = procs w'
       /\ next_pid w'' = next_pid w'.
Proof.
  assert (G : gone (next_pid idle) (procs idle)) by (intros p []).
  split; [reflexivity |]. split; [reflexivity |]. split; [exact G |].
  apply (start_music_then_live false true idle idle
           (mkPath "/opt/muzak/muzakfiles" "bossa.ogg")
           eq_refl eq_refl eq_refl eq_refl G).
Defined.

(** X7. Start, then Stop: on a host with pkill, where the identity of the
    process that Start launches is neither the tool's own nor its parent's
    and the tool's own command line does not match the sweep, Stop after a
    Start that started a process returns, reaches the tool with no call,
    removes the marker and terminates that process. *)
Theorem start_music_then_stop
        (quiet silent : bool) (w w1 : World) (music : Path) :
  is_music_playing w = Ret false w1 ->
  get_random_music_file w = Ret music w ->
  has_bash (host w) = true ->
  process_identity (next_pid w) = true ->
  gone (next_pid w) (procs w) ->
  has_pkill (host w) = true ->
  foreign_identity (host w) (next_pid w) = true ->
  tool_player (host w) = false ->
  exists w' w'',
    start_music quiet w = Ret tt w'
    /\ In (next_pid w) (map p_pid (procs w'))
    /\ stop_music silent w' = Ret tt w''
    /\ tool_killed w' w'' = false
    /\ pid_file w'' = None
    /\ gone (next_pid w) (procs w'').
Proof.
  intros E Hm Hb Hi Hg Hk Hfo Hl.
  destruct (start_music_live quiet w w1 music E Hm Hb Hi Hg)
    as [w' [f [Es [Hh [Hn [Hf [Ho [Hr Hp]]]]]]]].
  destruct (start_music_fresh quiet w w1 music E Hm Hb)
    as [w0 [Es0 [_ [Hf0 [Hps _]]]]].
  assert (w0 = w') by congruence. subst w0.
  assert (Hin : In (next_pid w) (map p_pid (procs w'))).
  { rewrite Hps, map_app, in_app_iff. right. now left. }
  assert (Hs : stop_spares_tool w' = true).
  { unfold stop_spares_tool. rewrite Hh, Hl, Hf0. cbn [content negb andb].
    rewrite py_str_ascii. cbn [andb].
    assert (f = mkFile (py_str (next_pid w)) true) by congruence. subst f.
    cbn [content] in Hr. now rewrite Hr. }
  clear Hf0 Es0 Hps.
  rewrite <- Hh in Hk.
  destruct (stop_music_kill_effect (next_pid w) w'
              (process_identity_in_range _ Hi) Hk)
    as [w2 [E2 [F2 [H2 [O2 [C2 [_ G2]]]]]]].
  specialize (G2 Hp).
  assert (S : exists w'', stop_music silent w' = Ret tt w''
                          /\ pid_file w'' = None
                          /\ gone (next_pid w) (procs w'')).
  { unfold stop_music, stop_music_try. py_go.
    unfold pid_file_unlink, subprocess_run_pkill, print. py_go.
    destruct silent; py_go; eexists; (split; [reflexivity |]); cbn;
      (split; [reflexivity |]); apply reap_gone_keep; exact G2. }
  destruct S as [w'' [S1 [S2 S3]]].
  exists w', w''. repeat split; auto.
  now apply (stop_music_tool_alive silent).
Qed.

(** Start and Stop on the idle sample host. *)
Lemma start_music_then_stop_witness :
  is_music_playing idle = Ret false idle
  /\ has_pkill (host idle) = true
  /\ foreign_identity (host idle) (next_pid idle) = true
  /\ exists w' w'',
       start_music false idle = Ret tt w'
       /\ In 500 (map p_pid (procs w'))
       /\ stop_music false w' = Ret tt w''
       /\ tool_killed w' w'' = false
       /\ pid_file w'' = None
       /\ gone 500 (procs w'').
Proof.
  assert (G : gone (next_pid idle) (procs idle)) by (intros p []).
  split; [reflexivity |]. split; [reflexivity |]. split; [reflexivity |].
  apply (start_music_then_stop false false idle idle
           (mkPath "/opt/muzak/muzakfiles" "bossa.ogg")
           eq_refl eq_refl eq_refl eq_refl G eq_refl eq_refl eq_refl).
Defined.

(** ** Stop at the edges *)

(** X8. Stop on a host without pkill terminates nothing: the failed call
    of pkill leaves the inner [try] before the recorded process is
    signalled, so the process table is unchanged and no SIGTERM is sent;
    a marker of the tool's user that holds an integer is removed all the
    same. *)
Theorem stop_music_without_pkill (quiet : bool) (w : World) :
  has_pkill (host w) = false ->
  exists w',
    stop_music quiet w = Ret tt w'
    /\ procs w' = procs w
    /\ (forall pid, ~ In (CKill pid SIGTERM) (calls w) ->
                    ~ In (CKill pid SIGTERM) (calls w'))
    /\ (forall f pid, pid_file w = Some f -> ours f = true ->
                      recorded w = Some pid -> pid_file w' = None).
Proof.
  intro Hk. unfold recorded.
  unfold stop_music, stop_music_try, stop_music_kill, subprocess_run_pkill,
    pid_file_unlink, print.
  destruct (pid_file w) as [f |] eqn:Hf; py_go.
  - destruct (parse_int (py_strip (content f))) as [pid |] eqn:Hp; py_go.
    + simpl (matches _ _). py_go.
      destruct (ours f) eqn:Ho; py_go; destruct quiet; py_go;
        eexists; (split; [reflexivity |]); cbn; (split; [reflexivity |]);
        (split; [intros x Hx; rewrite ?in_app_iff; cbn; intuition congruence |]);
        intros f0 pid0 Ef; congruence.
    + destruct quiet; py_go; eexists; (split; [reflexivity |]); cbn;
        (split; [reflexivity |]); (split; [auto |]); intros; congruence.
  - destruct quiet; py_go; eexists; (split; [reflexivity |]); cbn;
      (split; [reflexivity |]);
      (split; [intros x Hx; rewrite ?in_app_iff; cbn; intuition congruence |]);
      intros; congruence.
Qed.

(** Stop on the session of the host without pkill: the driver and the
    player go on, and the marker is gone. *)
Lemma stop_music_without_pkill_witness :
  has_pkill (host unequipped) = false
  /\ exists w',
       stop_music false unequipped = Ret tt w'
       /\ procs w' = procs unequipped
       /\ (forall pid, ~ In (CKill pid SIGTERM) (calls unequipped) ->
                       ~ In (CKill pid SIGTERM) (calls w'))
       /\ (forall f pid, pid_file unequipped = Some f -> ours f = true ->
                         recorded unequipped = Some pid -> pid_file w' = None).
Proof.
  split; [reflexivity |].
  apply (stop_music_without_pkill false unequipped eq_refl).
Defined.

(** X9. Stop on a marker whose text is no integer does nothing but report:
    the [ValueError] leaves the outer [try] at once, so the marker stays,
    no process is signalled, not even the sweep by command line runs, and
    unless quiet one line [Error stopping music: ...] is printed. *)
Theorem stop_music_garbled_marker (quiet : bool) (w : World) (f : File) :
  pid_file w = Some f -> parse_int (py_strip (content f)) = None ->
  exists e w',
    py_int (py_strip (content f)) w = Exc e w
    /\ cls e = ValueError
    /\ stop_music quiet w = Ret tt w'
    /\ pid_file w' = Some f
    /\ procs w' = procs w
    /\ calls w' = calls w
    /\ stdout w' = stdout w
         ++ (if quiet then []
             else [("Error stopping music: " ++ msg e)%string]).
Proof.
  intros Hf Hp. unfold stop_music, stop_music_try, print. py_go.
  destruct quiet; py_go; eexists; eexists; (split; [reflexivity |]); cbn;
    rewrite ?app_nil_r; auto 8.
Qed.

(** Stop on the host whose marker holds [abc]. *)
Lemma stop_music_garbled_marker_witness :
  pid_file garbled = Some (mkFile "abc" true)
  /\ parse_int (py_strip "abc") = None
  /\ exists e w',
       py_int (py_strip "abc") garbled = Exc e garbled
       /\ cls e = ValueError
       /\ stop_music false garbled = Ret tt w'
       /\ pid_file w' = Some (mkFile "abc" true)
       /\ procs w' = []
       /\ calls w' = []
       /\ stdout w' = [("Error stopping music: " ++ msg e)%string].
Proof.
  assert (H : parse_int (py_strip "abc") = None) by (vm_compute; reflexivity).
  split; [reflexivity |]. split; [exact H |].
  apply (stop_music_garbled_marker false garbled (mkFile "abc" true)
           eq_refl H).
Defined.

(** X10. Stop spares bystanders: in a process table without duplicate
    identities, a process whose command line the sweep does not match, and
    which is neither the recorded process nor one of its children, is still
    running after Stop, whatever else Stop does (the marker, if it holds an
    integer, holding a process identity). *)
Theorem stop_music_spares_bystanders (quiet : bool) (w : World) (p : Proc) :
  NoDup (map p_pid (procs w)) ->
  In p (procs w) -> p_player p = false ->
  (forall pid, recorded w = Some pid ->
     process_identity pid = true /\ p_pid p <> pid /\ p_ppid p <> pid) ->
  exists w',
    stop_music quiet w = Ret tt w' /\ survives p (procs w').
Proof.
  intros Hn Hp Hl Hrec. unfold recorded in Hrec.
  assert (Sweep : forall w1,
            stems (procs w) (procs w1) -> survives p (procs w1) ->
            exists w',
              try_except (subprocess_run_pkill ByPattern) [Exception]
                (fun e => when (negb quiet)
                            (print ("Error stopping music: " ++ msg e))) w1
              = Ret tt w' /\ survives p (procs w')).
  { intros w1 Hs Hv. unfold subprocess_run_pkill, print. py_go.
    destruct (has_pkill (host w1)); py_go.
    - eexists. split; [reflexivity |]. cbn.
      now apply (sweep_spares p (procs w)).
    - simpl (matches _ _). cbv iota.
      destruct quiet; py_go; eexists; (split; [reflexivity |]); exact Hv. }
  unfold stop_music, stop_music_try.
  destruct (pid_file w) as [f |] eqn:Hf; py_go.
  - destruct (parse_int (py_strip (content f))) as [pid |] eqn:Hpi; py_go.
    + destruct (Hrec pid eq_refl) as [Hi [Hx Hpp]].
      destruct (stop_music_kill_spares pid w p
                  (process_identity_in_range _ Hi) Hn Hp Hx Hpp)
        as [w1 [E1 [F1 [H1 [S1 V1]]]]].
      py_go. unfold pid_file_unlink. py_go.
      destruct (ours f); py_go.
      * destruct quiet; unfold print; py_run; apply Sweep; cbn; assumption.
      * simpl (matches _ _). cbv iota. unfold print.
        destruct quiet; py_run; eexists; (split; [reflexivity |]); exact V1.
    + simpl (matches _ _). cbv iota. unfold print.
      destruct quiet; py_run; eexists; (split; [reflexivity |]);
        now apply survives_refl.
  - destruct quiet; unfold print; py_run; apply Sweep; cbn;
      auto using stems_refl, survives_refl.
Qed.

(** Stop on the host where an editor runs beside the session: the editor
    is still there. *)
Lemma stop_music_spares_bystanders_witness :
  NoDup (map p_pid (procs busy))
  /\ In (mkProc 77 1 true false) (procs busy)
  /\ recorded busy = Some 500
  /\ exists w',
       stop_music false busy = Ret tt w'
       /\ survives (mkProc 77 1 true false) (procs w').
Proof.
  assert (N : NoDup (map p_pid (procs busy))).
  { repeat constructor; simpl; intuition discriminate. }
  assert (I : In (mkProc 77 1 true false) (procs busy)) by (simpl; auto).
  assert (R : recorded busy = Some 500) by (vm_compute; reflexivity).
  split; [exact N |]. split; [exact I |]. split; [exact R |].
  apply (stop_music_spares_bystanders false busy (mkProc 77 1 true false)
           N I eq_refl).
  intros pid H. rewrite R in H. injection H as <-.
  repeat split; discriminate.
Defined.

(** ** The listener at the edges *)

(** X11. A turn of the listener in which nothing is read changes nothing:
    after a timeout of [select], at the end of the input, and after a read
    that raises an [OSError], the loop goes on with what follows, the world
    as it was. In particular the end of the input does not end the
    listener. *)
Theorem watch_skips_idle_ticks (t : Tick) (rest : list Tick) (w : World) :
  idle_tick t = true -> watch (t :: rest) w = watch rest w.
Proof.
  intro H. cbn [watch].
  destruct (stop_flag w) eqn:Hflag.
  - destruct rest; simpl; now rewrite Hflag.
  - assert (E : turn t w = Ret Continue w).
    { destruct t as [| e | c | | e]; try discriminate; try reflexivity.
      simpl in H. unfold turn, select_ready, stdin_read1. py_run.
      unfold matches. simpl existsb. now rewrite H. }
    now rewrite E.
Qed.

(** The end of the input, then ESC, on the playing sample host. *)
Lemma watch_skips_idle_ticks_witness :
  idle_tick Eof = true
  /\ watch [Eof; Key 27] playing = watch [Key 27] playing.
Proof.
  split; [reflexivity |].
  apply (watch_skips_idle_ticks Eof [Key 27] playing eq_refl).
Defined.

(** X12. An error ends the listener without stopping the music: when
    [select] raises an [Exception], or the read raises one that is no
    [OSError] (a byte that cannot be decoded, say), the listener returns
    normally with the terminal restored; the flag is not set, Stop is not
    run, nothing is printed, and the input that follows is not read. *)
Theorem listener_fault_ends_watch
        (t : Tick) (rest : list Tick) (e : exn) (w : World) (old : Termios) :
  keyboard_available (host w) = true -> term w = Some old ->
  stop_flag w = false ->
  fault t = Some e -> issubclass (cls e) Exception = true ->
  exists w',
    listen_for_escape (t :: rest) w = Ret tt w'
    /\ stop_flag w' = false
    /\ pid_file w' = pid_file w
    /\ procs w' = procs w
    /\ stdout w' = stdout w
    /\ term w' = Some old
    /\ calls w' = calls w ++ [CSetraw; CTcsetattr old].
Proof.
  intros Hk Ht Hflag Hfault He.
  assert (E : forall w0, stop_flag w0 = false ->
                         watch (t :: rest) w0 = Exc e w0).
  { intros w0 H0. cbn [watch]. rewrite H0.
    destruct t as [| e0 | c | | e0]; try discriminate; simpl in Hfault.
    - injection Hfault as ->. reflexivity.
    - destruct (issubclass (cls e0) OSError) eqn:Ho; [discriminate |].
      injection Hfault as ->.
      unfold turn, select_ready, stdin_read1. py_run.
      unfold matches. simpl existsb. now rewrite Ho. }
  unfold listen_for_escape, tcgetattr, setraw. rewrite Hk. py_go.
  rewrite E by exact Hflag.
  rewrite (matches_Exception e He). unfold tcsetattr. py_go.
  eexists. split; [reflexivity |]. cbn. rewrite <- app_assoc. auto 8.
Qed.

(** A read that raises [ValueError] on the playing sample host: the ESC
    that follows is never seen and the session goes on. *)
Lemma listener_fault_ends_watch_witness :
  keyboard_available (host playing) = true
  /\ fault (ReadRaises (mkExn ValueError "invalid start byte"))
     = Some (mkExn ValueError "invalid start byte")
  /\ exists w',
       listen_for_escape
         [ReadRaises (mkExn ValueError "invalid start byte"); Key 27] playing
       = Ret tt w'
       /\ stop_flag w' = false
       /\ pid_file w' = pid_file playing
       /\ procs w' = procs playing
       /\ stdout w' = stdout playing
       /\ term w' = Some (mkTermios false 5)
       /\ calls w' = calls playing ++ [CSetraw; CTcsetattr (mkTermios false 5)].
Proof.
  split; [reflexivity |]. split; [reflexivity |].
  apply (listener_fault_ends_watch
           (ReadRaises (mkExn ValueError "invalid start byte")) [Key 27]
           (mkExn ValueError "invalid start byte") playing (mkTermios false 5)
           eq_refl eq_refl eq_refl eq_refl eq_refl).
Defined.

(** X13. The listener without a terminal: when standard input is no
    terminal, the attributes cannot be captured; that call precedes the
    [try], so the listener raises [termios.error] with nothing changed and
    no key ever read. On a platform without [termios] it returns at once
    instead. *)
Theorem listen_for_escape_without_terminal (script : list Tick) (w : World) :
  term w = None ->
  listen_for_escape script w
  = if keyboard_available (host w) then Exc not_a_tty w else Ret tt w.
Proof.
  intro Ht. unfold listen_for_escape, tcgetattr.
  destruct (keyboard_available (host w)); py_go; reflexivity.
Qed.

(** ESC sent through a pipe, and on the platform without [termios]. *)
Lemma listen_for_escape_without_terminal_witness :
  term piped = None
  /\ listen_for_escape [Key 27] piped = Exc not_a_tty piped
  /\ listen_for_escape [Key 27] headless = Ret tt headless.
Proof.
  split; [reflexivity |]. split.
  - apply (listen_for_escape_without_terminal [Key 27] piped eq_refl).
  - apply (listen_for_escape_without_terminal [Key 27] headless eq_refl).
Defined.

(** ** The command line *)

(** X14. A command line the usage text does not describe (no command, an
    unknown one, [run] without a command to run, [hook] without or with an
    unknown hook type) makes [main] exit with status 1 after printing at
    least one line; nothing but the output changes: no marker is read or
    written, no process started or signalled. *)
Theorem main_rejects_malformed
        (subprocess_run : Command -> bool -> M Z) (wait_for_stop : M unit)
        (argv : list string) (w : World) :
  invocation_ok argv = false ->
  exists lines,
    lines <> []
    /\ main subprocess_run wait_for_stop argv w
       = Ret (Some 1) (printed lines w).
Proof.
  intro H. destruct argv as [| prog [| command rest]].
  - exists usage. split; [discriminate | reflexivity].
  - exists usage. split; [discriminate | reflexivity].
  - unfold main. cbn [List.length Nat.ltb Nat.leb nth].
    cbn [invocation_ok] in H. unfold try_except2.
    destruct (String.eqb command "start"); [discriminate |].
    destruct (String.eqb command "stop"); [discriminate |].
    destruct (String.eqb command "run").
    { destruct rest; [| discriminate].
      eexists [_; _]. split; [discriminate | reflexivity]. }
    destruct (String.eqb command "hook").
    { destruct rest as [| hook_type rest].
      - eexists [_]. split; [discriminate | reflexivity].
      - cbn [List.length Nat.ltb Nat.leb nth]. rewrite H.
        eexists [_]. split; [discriminate | reflexivity]. }
    eexists [_; _]. split; [discriminate | reflexivity].
Qed.

(** An unknown command while the sample session plays. *)
Lemma main_rejects_malformed_witness :
  invocation_ok ["claude_muzak.py"; "dance"] = false
  /\ exists lines,
       lines <> []
       /\ main (exits 0) (ret tt) ["claude_muzak.py"; "dance"] playing
          = Ret (Some 1) (printed lines playing).
Proof.
  split; [reflexivity |].
  apply (main_rejects_malformed (exits 0) (ret tt)
           ["claude_muzak.py"; "dance"] playing eq_refl).
Defined.

Lemma not_interrupt (e : exn) :
  issubclass (cls e) Exception = true -> matches [KeyboardInterrupt] e = false.
Proof. unfold matches. destruct e as [c t]. now destruct c. Qed.

(** X15. The [run] command: [main] joins the arguments with spaces, runs
    the line through the shell between Start and Stop, and, whenever that
    Stop cannot reach the tool (the marker it finds, if any, is ASCII text
    that holds no integer or a positive identity that is neither the
    tool's nor its parent's, and the tool's own command line does not
    match the sweep), exits with the status of the command. When running the command raises, Stop
    has run once already; on [KeyboardInterrupt] the notice is printed,
    Stop runs a second time, again without reaching the tool, and the exit
    status is 0; on another [Exception] the error is printed and the exit
    status is 1. *)
Theorem main_run_exit_status
        (subprocess_run : Command -> bool -> M Z) (wait_for_stop : M unit)
        (prog arg : string) (args : list string) (w : World) :
  exists w1,
    start_music false w = Ret tt w1
    /\ match subprocess_run (CmdStr (String.concat " " (arg :: args))) true w1
       with
       | Ret status w2 =>
           stop_spares_tool w2 = true ->
           exists w3,
             stop_music false w2 = Ret tt w3
             /\ tool_killed w2 w3 = false
             /\ main subprocess_run wait_for_stop
                     (prog :: "run" :: arg :: args) w
                = Ret (Some status) w3
       | Exc e w2 =>
           stop_spares_tool w2 = true ->
           exists w3,
             stop_music false w2 = Ret tt w3
             /\ tool_killed w2 w3 = false
             /\ if matches [KeyboardInterrupt] e then
                  exists w4,
                    stop_music false
                      (emit (newline ++ "🔇 Interrupted - stopping music...")
                            w3)
                    = Ret tt w4
                    /\ tool_killed w3 w4 = false
                    /\ main subprocess_run wait_for_stop
                            (prog :: "run" :: arg :: args) w
                       = Ret (Some 0) w4
                else if matches [Exception] e then
                  main subprocess_run wait_for_stop
                       (prog :: "run" :: arg :: args) w
                  = Ret (Some 1) (emit ("❌ Error: " ++ msg e) w3)
                else
                  main subprocess_run wait_for_stop
                       (prog :: "run" :: arg :: args) w
                  = Exc e w3
       | Waiting w2 =>
           main subprocess_run wait_for_stop (prog :: "run" :: arg :: args) w
           = Waiting w2
       end.
Proof.
  destruct (start_music_returns false w) as [w1 E1].
  exists w1. split; [exact E1 |].
  unfold main. cbn [List.length Nat.ltb Nat.leb nth skipn].
  replace (String.eqb "run" "start") with false by reflexivity.
  replace (String.eqb "run" "stop") with false by reflexivity.
  rewrite String.eqb_refl.
  unfold try_except2, run_with_music, bind, try_finally. cbn [is_str].
  rewrite E1.
  destruct (subprocess_run (CmdStr (String.concat " " (arg :: args))) true w1)
    as [status w2 | e w2 | w2]; [| | reflexivity]; intro Hs.
  - destruct (stop_music_returns false w2) as [w3 E3]. exists w3.
    rewrite E3. split; [reflexivity |].
    split; [now apply (stop_music_tool_alive false) | reflexivity].
  - destruct (stop_music_returns false w2) as [w3 E3]. exists w3.
    rewrite E3. split; [reflexivity |].
    split; [now apply (stop_music_tool_alive false) |].
    destruct (matches [KeyboardInterrupt] e).
    + unfold print.
      destruct (stop_music_returns false
                  (emit (newline ++ "🔇 Interrupted - stopping music...") w3))
        as [w4 E4].
      exists w4. rewrite E4. split; [reflexivity |]. split; [| reflexivity].
      pose proof (stop_music_marker false w2) as K. rewrite E3 in K.
      apply (stop_music_tool_alive false
               (emit (newline ++ "🔇 Interrupted - stopping music...") w3) w4);
        [| exact E4].
      exact (stop_spares_tool_kept w2 w3 K Hs).
    + destruct (matches [Exception] e); reflexivity.
Qed.

(** [run make test] around a command that exits with 3, and around one
    interrupted from the keyboard, on the idle sample host. *)
Lemma main_run_exit_status_witness :
  (exists w3,
      main (exits 3) (ret tt) ["claude_muzak.py"; "run"; "make"; "test"] idle
      = Ret (Some 3) w3)
  /\ (exists w4,
         main (fun _ _ => raise (mkExn KeyboardInterrupt "")) (ret tt)
              ["claude_muzak.py"; "run"; "make"; "test"] idle
         = Ret (Some 0) w4).
Proof.
  split.
  - destruct (main_run_exit_status (exits 3) (ret tt)
                "claude_muzak.py" "make" ["test"] idle) as [w1 [E1 H]].
    assert (W : w1 = world_of (start_music false idle))
      by (rewrite E1; reflexivity).
    cbn [exits ret] in H.
    assert (Hs : stop_spares_tool w1 = true)
      by (rewrite W; vm_compute; reflexivity).
    destruct (H Hs) as [w3 [_ [_ R]]]. now exists w3.
  - destruct (main_run_exit_status
                (fun _ _ => raise (mkExn KeyboardInterrupt "")) (ret tt)
                "claude_muzak.py" "make" ["test"] idle) as [w1 [E1 H]].
    assert (W : w1 = world_of (start_music false idle))
      by (rewrite E1; reflexivity).
    cbn [raise] in H.
    assert (Hs : stop_spares_tool w1 = true)
      by (rewrite W; vm_compute; reflexivity).
    destruct (H Hs) as [w3 [_ [_ R]]].
    change (matches [KeyboardInterrupt] (mkExn KeyboardInterrupt "")) with true
      in R.
    destruct R as [w4 [_ [_ R]]]. now exists w4.
Defined.

(** X16. The [start] command when the liveness check raises (a marker
    that holds an integer outside the range of [pid_t], or one the tool may
    not unlink): the check is called outside any [try] of
    [start_music_interactive], so the error reaches [main], which prints
    it and exits with status 1; nothing is started. *)
Theorem main_start_check_raises
        (subprocess_run : Command -> bool -> M Z) (wait_for_stop : M unit)
        (prog : string) (rest : list string) (e : exn) (w w1 : World) :
  is_music_playing w = Exc e w1 ->
  exists w',
    main subprocess_run wait_for_stop (prog :: "start" :: rest) w
    = Ret (Some 1) w'
    /\ stdout w' = stdout w ++ [("❌ Error: " ++ msg e)%string]
    /\ procs w' = procs w
    /\ spawns (calls w') = spawns (calls w).
Proof.
  intro E. pose proof (tame_is_music_playing w) as T. rewrite E in T.
  pose proof (is_music_playing_probes w) as P. rewrite E in P.
  destruct P as [_ [Hp [_ [Ho Hs]]]]. simpl in Hp, Ho, Hs.
  exists (emit ("❌ Error: " ++ msg e) w1). split.
  - unfold main. cbn [List.length Nat.ltb Nat.leb nth].
    rewrite String.eqb_refl.
    unfold try_except2, start_music_interactive, bind. rewrite E.
    now rewrite (not_interrupt e T), (matches_Exception e T).
  - cbn. now rewrite Ho, Hp, Hs.
Qed.

(** The [start] command on the host whose marker holds
    99999999999999999999. *)
Lemma main_start_check_raises_witness :
  is_music_playing oversized
  = Exc (pid_overflow 99999999999999999999)
        (log (CKill 99999999999999999999 SIG0) oversized)
  /\ exists w',
       main (exits 0) (ret tt) ["claude_muzak.py"; "start"] oversized
       = Ret (Some 1) w'
       /\ stdout w'
          = ["❌ Error: Python int too large to convert to C long"]
       /\ procs w' = []
       /\ spawns (calls w') = [].
Proof.
  assert (H : is_music_playing oversized
              = Exc (pid_overflow 99999999999999999999)
                    (log (CKill 99999999999999999999 SIG0) oversized))
    by (vm_compute; reflexivity).
  split; [exact H |].
  apply (main_start_check_raises (exits 0) (ret tt) "claude_muzak.py" []
           (pid_overflow 99999999999999999999) oversized
           (log (CKill 99999999999999999999 SIG0) oversized) H).
Defined.

Lemma civil_tame {A} (m : M A) : tame m -> civil m.
Proof.
  intros H w. specialize (H w). destruct (m w); auto.
  unfold matches. simpl. rewrite H. apply orb_true_iff. right. reflexivity.
Qed.

Lemma civil_ret {A} (a : A) : civil (ret a).
Proof. intro w. exact I. Qed.

Lemma civil_bind {A B} (m : M A) (k : A -> M B) :
  civil m -> (forall a, civil (k a)) -> civil (bind m k).
Proof.
  intros Hm Hk w. unfold bind. specialize (Hm w).
  destruct (m w) as [a w1 | e w1 | w1]; auto. apply Hk.
Qed.

Lemma civil_returns {A} (m : M A) :
  (forall w, exists a w', m w = Ret a w') -> civil m.
Proof. intros H w. destruct (H w) as [a [w' E]]. now rewrite E. Qed.

Lemma civil_try_finally {A} (m : M A) (fin : M unit) :
  civil m -> (forall w, exists w', fin w = Ret tt w') ->
  civil (try_finally m fin).
Proof.
  intros Hm Hf w. unfold try_finally. specialize (Hm w).
  destruct (m w) as [a w1 | e w1 | w1]; auto;
    destruct (Hf w1) as [w2 E]; now rewrite E.
Qed.

Lemma print_lines_returns (lines : list string) (w : World) :
  exists w', print_lines lines w = Ret tt w'.
Proof.
  revert w. induction lines as [| l lines IH]; intro w; simpl.
  - now exists w.
  - unfold bind, print. apply IH.
Qed.

Lemma civil_print (line : string) : civil (print line).
Proof. apply civil_tame, tame_print. Qed.

Lemma civil_stop_music (quiet : bool) : civil (stop_music quiet).
Proof.
  apply civil_returns. intro w.
  destruct (stop_music_returns quiet w) as [w' E]. now exists tt, w'.
Qed.

Lemma civil_start_music (quiet : bool) : civil (start_music quiet).
Proof.
  apply civil_returns. intro w.
  destruct (start_music_returns quiet w) as [w' E]. now exists tt, w'.
Qed.

Lemma civil_start_music_interactive (wait_for_stop : M unit) :
  civil wait_for_stop -> civil (start_music_interactive wait_for_stop).
Proof.
  intro Hw. unfold start_music_interactive.
  apply civil_bind; [apply civil_tame, tame_is_music_playing |].
  intros [|]; [apply civil_print |].
  apply civil_bind; [apply civil_start_music |]. intros _ w.
  destruct (keyboard_available (host w)).
  - apply (civil_bind (print _) (fun _ => wait_for_stop));
      [apply civil_print | intros _; exact Hw].
  - apply civil_print.
Qed.

Lemma civil_run_with_music
      (subprocess_run : Command -> bool -> M Z) (command : Command) :
  (forall command shell, civil (subprocess_run command shell)) ->
  civil (run_with_music subprocess_run command).
Proof.
  intro Hs. unfold run_with_music.
  apply civil_bind; [apply civil_start_music |]. intros _.
  apply civil_try_finally; [| apply stop_music_returns].
  destruct (is_str command); apply Hs.
Qed.

Lemma civil_hook (hook_type : string) : civil (hook hook_type).
Proof.
  unfold hook, stdout_flush.
  apply civil_bind; [| intros; apply civil_ret].
  destruct (String.eqb hook_type "start").
  - repeat (apply civil_bind; [| intros _]);
      auto using civil_start_music, civil_print, civil_ret.
  - destruct (String.eqb hook_type "stop");
      [apply civil_stop_music | apply civil_ret].
Qed.

(** X17. No exception leaves [main]: when the wrapped command and the
    wait for the stop raise nothing but instances of [KeyboardInterrupt]
    and [Exception], [main] ends, for every command line and in every
    world, by an exit status or by reaching its end (or it is still
    waiting); whatever is raised below it is handled by one of its two
    handlers, neither of which raises in turn. *)
Theorem main_never_raises
        (subprocess_run : Command -> bool -> M Z) (wait_for_stop : M unit)
        (argv : list string) (w : World) :
  (forall command shell, civil (subprocess_run command shell)) ->
  civil wait_for_stop ->
  match main subprocess_run wait_for_stop argv w with
  | Ret _ _ | Waiting _ => True
  | Exc _ _ => False
  end.
Proof.
  intros Hs Hw.
  unfold main. destruct (List.length argv <? 2)%nat.
  - unfold bind. destruct (print_lines_returns usage w) as [w' E].
    now rewrite E.
  - unfold try_except2.
    match goal with
    | |- match match ?body w with _ => _ end with _ => _ end =>
        assert (C : civil body)
    end.
    { repeat match goal with
             | |- civil (if ?c then _ else _) => destruct c
             | |- civil (bind _ _) => apply civil_bind
             | |- civil (print _) => apply civil_print
             | |- civil (ret _) => apply civil_ret
             | |- civil (stop_music _) => apply civil_stop_music
             | |- civil (hook _) => apply civil_hook
             | |- civil (run_with_music _ _) =>
                 apply civil_run_with_music; exact Hs
             | |- civil (start_music_interactive _) =>
                 apply civil_start_music_interactive; exact Hw
             | |- forall _, _ => intro
             | |- civil (let _ := _ in _) => cbv zeta
             end. }
    specialize (C w).
    match goal with
    | |- match match ?body w with _ => _ end with _ => _ end =>
        destruct (body w) as [r w1 | e w1 | w1]
    end; auto.
    unfold matches in C. simpl existsb in C. rewrite orb_false_r in C.
    unfold matches. simpl existsb. rewrite !orb_false_r.
    destruct (issubclass (cls e) KeyboardInterrupt).
    + unfold bind, print.
      destruct (stop_music_returns false
                  (emit (newline ++ "🔇 Interrupted - stopping music...") w1))
        as [w2 E].
      now rewrite E.
    + simpl in C. rewrite C. exact I.
Qed.

(** [main] around a command that cannot be launched, on the idle sample
    host. *)
Lemma main_never_raises_witness :
  (forall command shell, civil (unlaunchable command shell))
  /\ civil (ret tt)
  /\ match main unlaunchable (ret tt) ["claude_muzak.py"; "run"; "nosuch"] idle
     with
     | Ret _ _ | Waiting _ => True
     | Exc _ _ => False
     end.
Proof.
  assert (Hs : forall command shell, civil (unlaunchable command shell)).
  { intros command shell w. destruct shell; [exact I | reflexivity]. }
  assert (Hw : civil (ret tt)) by (intro w; exact I).
  split; [exact Hs |]. split; [exact Hw |].
  apply (main_never_raises unlaunchable (ret tt)
           ["claude_muzak.py"; "run"; "nosuch"] idle Hs Hw).
Defined.

#[local] Instance same_host_frame : Frame same_host.
Proof.
  split; unfold same_host; [reflexivity | intros a b c H1 H2; congruence].
Qed.

(** Start leaves the host as it is. *)
Lemma start_music_same_host (quiet : bool) :
  keeps same_host (start_music quiet).
Proof.
  assert (L1 : keeps same_host pid_file_exists) by by_world.
  assert (L2 : keeps same_host read_pid_file) by by_world.
  assert (L3 : forall t, keeps same_host (py_int t)) by (intro; by_world).
  assert (L4 : forall p s, keeps same_host (os_kill p s)) by (intros; by_world).
  assert (L5 : keeps same_host pid_file_unlink) by by_world.
  assert (L6 : keeps same_host get_random_music_file) by by_world.
  assert (L7 : forall l, keeps same_host (print l)) by (intro; by_world).
  assert (L8 : forall m, keeps same_host (popen_player m)) by (intro; by_world).
  assert (L9 : forall t, keeps same_host (write_pid_file t))
    by (intro; by_world).
  unfold start_music, start_music_try, is_music_playing.
  repeat first
    [ progress intros
    | solve [auto]
    | apply keeps_ret; solve [typeclasses eauto]
    | apply keeps_when; [solve [typeclasses eauto] |]
    | apply keeps_if
    | apply keeps_bind; [solve [typeclasses eauto] | |]
    | apply keeps_try_except; [solve [typeclasses eauto] | |] ].
Qed.

(** X18. The interactive start on a platform without [termios]: when the
    liveness check answers no, [start_music_interactive] runs Start, prints
    that the music has started and returns at once, leaving the session to
    the [stop] command; the line is printed whether or not Start managed
    to start anything. *)
Theorem start_music_interactive_without_keyboard
        (wait_for_stop : M unit) (w w1 : World) :
  keyboard_available (host w) = false ->
  is_music_playing w = Ret false w1 ->
  exists w2,
    start_music false w1 = Ret tt w2
    /\ start_music_interactive wait_for_stop w
       = Ret tt
           (emit "🎵 Music started - use 'python claude_muzak.py stop' to stop"
                 w2).
Proof.
  intros Hk E.
  destruct (start_music_returns false w1) as [w2 E2]. exists w2.
  split; [exact E2 |].
  destruct (is_music_playing_no w w1 E) as [_ [H1 _]].
  pose proof (start_music_same_host false w1) as H2. rewrite E2 in H2.
  unfold same_host in H2. simpl in H2.
  unfold start_music_interactive, bind. rewrite E, E2.
  rewrite H2, H1, Hk. reflexivity.
Qed.

(** The interactive start on the platform without [termios]. *)
Lemma start_music_interactive_without_keyboard_witness :
  keyboard_available (host headless) = false
  /\ is_music_playing headless = Ret false headless
  /\ exists w2,
       start_music false headless = Ret tt w2
       /\ start_music_interactive (ret tt) headless
          = Ret tt
              (emit "🎵 Music started - use 'python claude_muzak.py stop' to stop"
                    w2).
Proof.
  split; [reflexivity |]. split; [reflexivity |].
  apply (start_music_interactive_without_keyboard (ret tt) headless headless
           eq_refl eq_refl).
Defined.
